(** * key.cpp: switch debouncing and timed motion-input macros

    A shallow embedding of the firmware in [src/key.cpp] and the proofs of
    its specification.  The firmware polls five active-low switches,
    debounces each of them, and on a debounced press either plays a timed
    sequence of keyboard reports (a fighting-game motion input) or flips the
    facing direction.

    The sketch is single threaded and works on global variables, so the
    embedding threads one [World] through a small state-and-output monad:
    the state holds the globals of the sketch and the answers of the USB
    stack, the output is the ordered list of calls made to the USB keyboard
    and to [delay]. *)

From Stdlib Require Import ZArith Lia List Bool.
From stdpp Require Import base list.
Import ListNotations.

Local Open Scope Z_scope.

(** ** Settings *)

(** [constexpr size_t N = 5] *)
Definition N : nat := 5.

(** [SWITCH_PINS[N] = {13, 12, 11, 10, 9}] *)
Definition SWITCH_PINS : list Z := [13; 12; 11; 10; 9].

(** [const uint32_t DEBOUNCE_MS = 30] *)
Definition DEBOUNCE_MS : Z := 30.

(** Key codes of the USB HID keyboard usage page, as TinyUSB's [hid.h]
    names them. *)
Definition HID_KEY_A : Z := 0x04.
Definition HID_KEY_D : Z := 0x07.
Definition HID_KEY_J : Z := 0x0D.
Definition HID_KEY_K : Z := 0x0E.
Definition HID_KEY_M : Z := 0x10.
Definition HID_KEY_N : Z := 0x11.
Definition HID_KEY_S : Z := 0x16.
Definition HID_KEY_W : Z := 0x1A.
Definition HID_KEY_SEMICOLON : Z := 0x33.
Definition HID_KEY_COMMA : Z := 0x36.

Definition KEY_UP : Z := HID_KEY_W.
Definition KEY_LEFT : Z := HID_KEY_A.
Definition KEY_DOWN : Z := HID_KEY_S.
Definition KEY_RIGHT : Z := HID_KEY_D.

Definition LP : Z := HID_KEY_J.
Definition MP : Z := HID_KEY_K.
Definition HP : Z := HID_KEY_SEMICOLON.
Definition LK : Z := HID_KEY_N.
Definition MK : Z := HID_KEY_M.
Definition HK : Z := HID_KEY_COMMA.

(** [enum : uint8_t { BTN_HADOU=0, BTN_SHORYU=1, BTN_TATSU=2, BTN_TOGGLE_FACE=3 }] *)
Definition BTN_HADOU : nat := 0.
Definition BTN_SHORYU : nat := 1.
Definition BTN_TATSU : nat := 2.
Definition BTN_TOGGLE_FACE : nat := 3.

(** Timings in milliseconds ([const uint16_t]). *)
Definition STEP : Z := 28.
Definition TAP : Z := 22.
Definition GAP : Z := 16.

(** Logic levels of [digitalRead]: a pressed switch reads [LOW]. *)
Definition LOW : bool := false.
Definition HIGH : bool := true.

(** ** The 32-bit millisecond clock *)

Definition U32 : Z := 2 ^ 32.

(** [millis()] at [t] milliseconds of uptime: the counter is a [uint32_t]
    and wraps around. *)
Definition millis (t : Z) : Z := t mod U32.

(** [a - b] on two [uint32_t]. *)
Definition sub32 (a b : Z) : Z := (a - b) mod U32.

(** ** State, output and the monad *)

(** The globals of the sketch, and the USB stack seen from the sketch: the
    answer of the [n]-th call of [usb_hid.ready()] is [usb_ready n], and
    [ready_calls] counts the calls made so far. *)
Record World : Type := mkWorld {
  facingRight : bool;
  lastStable : list bool;
  debouncing : list bool;
  lastChangeMs : list Z;
  usb_ready : nat -> bool;
  ready_calls : nat
}.

(** What the sketch does to the outside, in order. *)
Inductive Event : Type :=
| KeyboardReport (report_id modifier : Z) (keycode : list Z)
| KeyboardRelease (report_id : Z)
| Delay (ms : Z)
| Pressed (idx : nat).

Record Res (A : Type) : Type := mkRes {
  val : A;
  st : World;
  out : list Event
}.
Arguments mkRes {A} _ _ _.
Arguments val {A} _.
Arguments st {A} _.
Arguments out {A} _.

Definition M (A : Type) : Type := World -> Res A.

Definition ret {A} (a : A) : M A := fun w => mkRes a w [].

Definition bind {A B} (m : M A) (f : A -> M B) : M B :=
  fun w =>
    let r1 := m w in
    let r2 := f (val r1) (st r1) in
    mkRes (val r2) (st r2) (out r1 ++ out r2).

Declare Scope fw_scope.
Delimit Scope fw_scope with fw.
Notation "x <- m ;; k" := (bind m (fun x => k))
  (at level 100, m at next level, k at level 200, right associativity) : fw_scope.
Notation "m ;; k" := (bind m (fun _ => k))
  (at level 100, k at level 200, right associativity) : fw_scope.
Local Open Scope fw_scope.

Definition gets {A} (f : World -> A) : M A := fun w => mkRes (f w) w [].
Definition modify (f : World -> World) : M unit := fun w => mkRes tt (f w) [].
Definition emit (e : Event) : M unit := fun w => mkRes tt w [e].

(** [for (x : xs) body(x)] *)
Fixpoint for_each {A} (xs : list A) (body : A -> M unit) : M unit :=
  match xs with
  | [] => ret tt
  | x :: xs' => body x ;; for_each xs' body
  end.

Definition set_facingRight (b : bool) (w : World) : World :=
  mkWorld b (lastStable w) (debouncing w) (lastChangeMs w)
          (usb_ready w) (ready_calls w).
Definition set_lastStable (i : nat) (b : bool) (w : World) : World :=
  mkWorld (facingRight w) (<[i:=b]> (lastStable w)) (debouncing w)
          (lastChangeMs w) (usb_ready w) (ready_calls w).
Definition set_debouncing (i : nat) (b : bool) (w : World) : World :=
  mkWorld (facingRight w) (lastStable w) (<[i:=b]> (debouncing w))
          (lastChangeMs w) (usb_ready w) (ready_calls w).
Definition set_lastChangeMs (i : nat) (t : Z) (w : World) : World :=
  mkWorld (facingRight w) (lastStable w) (debouncing w)
          (<[i:=t]> (lastChangeMs w)) (usb_ready w) (ready_calls w).
Definition next_ready_call (w : World) : World :=
  mkWorld (facingRight w) (lastStable w) (debouncing w) (lastChangeMs w)
          (usb_ready w) (S (ready_calls w)).

(** ** HID utilities *)

(** [usb_hid.ready()] *)
Definition ready : M bool :=
  fun w => mkRes (usb_ready w (ready_calls w)) (next_ready_call w) [].

Definition keyboardReport (report_id modifier : Z) (kc : list Z) : M unit :=
  emit (KeyboardReport report_id modifier kc).
Definition keyboardRelease (report_id : Z) : M unit :=
  emit (KeyboardRelease report_id).
Definition delay (ms : Z) : M unit := emit (Delay ms).

(** The copy loop of [sendKeys]:
    [uint8_t kc[6] = {0}; for (i = 0; i < count && i < 6; i++) kc[i] = keys[i];] *)
Definition fill_report (keys : list Z) (count : nat) : list Z :=
  foldl (fun kc i => <[i := keys !!! i]> kc)
        (replicate 6 0) (seq 0 (Nat.min count 6)).

(** [sendKeys(keys, count)]: nothing when the transport is not ready;
    otherwise the first [count] keys, six at most, go into a zeroed report
    of six key codes, sent with report id 1 and no modifier. *)
Definition sendKeys (keys : list Z) (count : nat) : M unit :=
  r <- ready ;;
  if negb r then ret tt
  else keyboardReport 1 0 (fill_report keys count).

Definition releaseAll : M unit :=
  r <- ready ;;
  if negb r then ret tt else keyboardRelease 1.

(** The collecting loop of [hold]:
    [uint8_t tmp[6] = {0}; i = 0; for (auto k : ks) { if (i < 6) tmp[i++] = k; }] *)
Definition collect_keys (ks : list Z) : list Z * nat :=
  foldl (fun '(tmp, i) k =>
           if (i <? 6)%nat then (<[i:=k]> tmp, S i) else (tmp, i))
        (replicate 6 0, 0%nat) ks.

(** [hold(ks, ms)]: the first six keys of [ks] are sent, then [delay(ms)]. *)
Definition hold (ks : list Z) (ms : Z) : M unit :=
  let '(tmp, i) := collect_keys ks in
  sendKeys tmp i ;;
  delay ms.

Definition tap (k : Z) (ms : Z) : M unit :=
  hold [k] ms ;;
  releaseAll ;;
  delay GAP.

(** ** Direction helpers *)

Definition FORWARD : M Z :=
  gets (fun w => if facingRight w then KEY_RIGHT else KEY_LEFT).
Definition BACKWARD : M Z :=
  gets (fun w => if facingRight w then KEY_LEFT else KEY_RIGHT).

Definition hold_df (ms : Z) : M unit :=
  f <- FORWARD ;; hold [KEY_DOWN; f] ms.
Definition hold_db (ms : Z) : M unit :=
  b <- BACKWARD ;; hold [KEY_DOWN; b] ms.

(** ** Commands *)

Definition cmd_hadouken (punch : Z) : M unit :=
  hold [KEY_DOWN] STEP ;; releaseAll ;; delay GAP ;;
  hold_df STEP ;; releaseAll ;; delay GAP ;;
  (f <- FORWARD ;; hold [f] (STEP / 2)) ;;
  tap punch TAP ;;
  releaseAll.

Definition cmd_shoryu (punch : Z) : M unit :=
  (f <- FORWARD ;; hold [f] (STEP / 2)) ;; releaseAll ;; delay (GAP / 2) ;;
  hold [KEY_DOWN] (STEP / 2) ;; releaseAll ;; delay (GAP / 2) ;;
  hold_df STEP ;;
  tap punch TAP ;;
  releaseAll.

Definition cmd_tatsu (kick : Z) : M unit :=
  hold [KEY_DOWN] STEP ;; releaseAll ;; delay GAP ;;
  hold_db STEP ;; releaseAll ;; delay GAP ;;
  (b <- BACKWARD ;; hold [b] (STEP / 2)) ;;
  tap kick TAP ;;
  releaseAll.

(** ** Setup and loop *)

(** The switch part of [setup()]: every channel starts from the level read
    at start-up, not debouncing.  [pins p] is the level of pin [p].  The
    start of the USB device that follows in [setup()] does not touch these
    variables.  [facingRight] is initialised to [true]. *)
Definition setup (pins : Z -> bool) (rdy : nat -> bool) : World :=
  mkWorld true
          (map (fun i => pins (SWITCH_PINS !!! i)) (seq 0 N))
          (replicate N false)
          (replicate N 0)
          rdy 0.

(** [onPressed(idx)]: the [switch] on the channel index. *)
Definition onPressed (idx : nat) : M unit :=
  if (idx =? BTN_HADOU)%nat then cmd_hadouken LP
  else if (idx =? BTN_SHORYU)%nat then cmd_shoryu MP
  else if (idx =? BTN_TATSU)%nat then cmd_tatsu LK
  else if (idx =? BTN_TOGGLE_FACE)%nat then
    modify (fun w => set_facingRight (negb (facingRight w)) w)
  else ret tt.

(** The body of the [for] of [loop()] for channel [i].  [digitalRead]
    answers [HIGH] or [LOW], so [raw] is a boolean like [lastStable[i]].
    The call of [onPressed(i)] is marked in the output by [Pressed i]. *)
Definition scan (now : Z) (pins : Z -> bool) (i : nat) : M unit :=
  let raw := pins (SWITCH_PINS !!! i) in
  stable <- gets (fun w => lastStable w !!! i) ;;
  if negb (eqb raw stable) then
    deb <- gets (fun w => debouncing w !!! i) ;;
    if negb deb then
      modify (set_debouncing i true) ;;
      modify (set_lastChangeMs i now)
    else
      last <- gets (fun w => lastChangeMs w !!! i) ;;
      if DEBOUNCE_MS <=? sub32 now last then
        modify (set_debouncing i false) ;;
        modify (set_lastStable i raw) ;;
        if eqb raw LOW then emit (Pressed i) ;; onPressed i else ret tt
      else ret tt
  else
    modify (set_debouncing i false).

(** One pass of [loop()], entered when [millis()] reads [now]. *)
Definition loop (now : Z) (pins : Z -> bool) : M unit :=
  for_each (seq 0 N) (scan now pins).

(** Successive passes of [loop()], one per sample [(now, pins)]. *)
Definition run (samples : list (Z * (Z -> bool))) : M unit :=
  for_each samples (fun s => loop (fst s) (snd s)).

(** ** Reading the output *)

(** The durations of the [delay] calls, in order. *)
Fixpoint delays (es : list Event) : list Z :=
  match es with
  | [] => []
  | Delay ms :: es' => ms :: delays es'
  | _ :: es' => delays es'
  end.

(** The sum of a list of durations. *)
Definition total (ds : list Z) : Z := foldr Z.add 0 ds.

(** A call that reaches the USB keyboard. *)
Definition is_send (e : Event) : bool :=
  match e with
  | KeyboardReport _ _ _ | KeyboardRelease _ => true
  | _ => false
  end.

(** The HID reports, in order. *)
Fixpoint reports (es : list Event) : list Event :=
  match es with
  | [] => []
  | e :: es' => if is_send e then e :: reports es' else reports es'
  end.

(** How often [onPressed(i)] was called. *)
Fixpoint press_count (i : nat) (es : list Event) : nat :=
  match es with
  | [] => 0
  | Pressed j :: es' => (if (j =? i)%nat then 1 else 0) + press_count i es'
  | _ :: es' => press_count i es'
  end.

(** [skip_unready rdy n es] is [es] without the sends that find the
    transport not ready, when the first send of [es] is answered by
    [rdy n], the second by [rdy (S n)], and so on.  Nothing is put in the
    place of a skipped send and every other event stays where it is. *)
Fixpoint skip_unready (rdy : nat -> bool) (n : nat) (es : list Event)
  : list Event :=
  match es with
  | [] => []
  | e :: es' =>
      if is_send e
      then (if rdy n then [e] else []) ++ skip_unready rdy (S n) es'
      else e :: skip_unready rdy n es'
  end.

(** The same world with another USB stack. *)
Definition set_usb_ready (rdy : nat -> bool) (w : World) : World :=
  mkWorld (facingRight w) (lastStable w) (debouncing w) (lastChangeMs w)
          rdy (ready_calls w).

Definition always_ready : nat -> bool := fun _ => true.
Definition never_ready : nat -> bool := fun _ => false.

(** The world after [k] more calls of [ready()]. *)
Definition add_ready_calls (k : nat) (w : World) : World :=
  mkWorld (facingRight w) (lastStable w) (debouncing w) (lastChangeMs w)
          (usb_ready w) (ready_calls w + k).

(** [plays m script]: whatever the world, [m] attempts the events of
    [script] (which may depend on the facing direction) in order, skips the
    sends that find the transport not ready, and changes nothing in the
    world but the count of [ready()] calls. *)
Definition plays (m : M unit) (script : bool -> list Event) : Prop :=
  forall w,
    m w = mkRes tt
            (add_ready_calls (length (reports (script (facingRight w)))) w)
            (skip_unready (usb_ready w) (ready_calls w)
                          (script (facingRight w))).

(** The arrays have the size they are declared with. *)
Definition wf (w : World) : Prop :=
  length (lastStable w) = N /\ length (debouncing w) = N /\
  length (lastChangeMs w) = N.

(** Worlds and samples to try things on: all switches released at
    start-up; then all switches closed, first seen ten milliseconds before
    the clock wraps. *)
Definition all_high : Z -> bool := fun _ => HIGH.
Definition all_low : Z -> bool := fun _ => LOW.
Definition w0 : World := setup all_high always_ready.
Definition w_unready : World := setup all_high never_ready.
Definition w_pending : World := st (loop (millis (U32 - 10)) all_low w0).

(** What [cmd_hadouken(punch)] attempts, with [fwd] for the forward key. *)
Definition hadouken_script (fwd punch : Z) : list Event :=
  [ KeyboardReport 1 0 [KEY_DOWN; 0; 0; 0; 0; 0]; Delay STEP;
    KeyboardRelease 1; Delay GAP;
    KeyboardReport 1 0 [KEY_DOWN; fwd; 0; 0; 0; 0]; Delay STEP;
    KeyboardRelease 1; Delay GAP;
    KeyboardReport 1 0 [fwd; 0; 0; 0; 0; 0]; Delay (STEP / 2);
    KeyboardReport 1 0 [punch; 0; 0; 0; 0; 0]; Delay TAP;
    KeyboardRelease 1; Delay GAP;
    KeyboardRelease 1 ].

(** What [cmd_shoryu(punch)] attempts. *)
Definition shoryu_script (fwd punch : Z) : list Event :=
  [ KeyboardReport 1 0 [fwd; 0; 0; 0; 0; 0]; Delay (STEP / 2);
    KeyboardRelease 1; Delay (GAP / 2);
    KeyboardReport 1 0 [KEY_DOWN; 0; 0; 0; 0; 0]; Delay (STEP / 2);
    KeyboardRelease 1; Delay (GAP / 2);
    KeyboardReport 1 0 [KEY_DOWN; fwd; 0; 0; 0; 0]; Delay STEP;
    KeyboardReport 1 0 [punch; 0; 0; 0; 0; 0]; Delay TAP;
    KeyboardRelease 1; Delay GAP;
    KeyboardRelease 1 ].

(** What [cmd_tatsu(kick)] attempts, with [bwd] for the backward key. *)
Definition tatsu_script (bwd kick : Z) : list Event :=
  hadouken_script bwd kick.

Definition forward_key (facing : bool) : Z :=
  if facing then KEY_RIGHT else KEY_LEFT.
Definition backward_key (facing : bool) : Z :=
  if facing then KEY_LEFT else KEY_RIGHT.

(** The delays of [m] do not depend on the answers of [ready()]. *)
Definition timing_independent (m : M unit) : Prop :=
  forall w rdy, delays (out (m (set_usb_ready rdy w))) = delays (out (m w)).

(** The output of [m] is its output with a transport that is always ready,
    less the sends that found the transport not ready. *)
Definition drops_unready_sends (m : M unit) : Prop :=
  forall w,
    out (m w) =
    skip_unready (usb_ready w) (ready_calls w)
                 (out (m (set_usb_ready always_ready w))).

(** ** One channel of the scanner *)

(** The debounce state of one channel: [lastStable[i]], [debouncing[i]]
    and [lastChangeMs[i]]. *)
Record Chan : Type := mkChan {
  c_stable : bool;
  c_debouncing : bool;
  c_lastChangeMs : Z
}.

Definition chan (i : nat) (w : World) : Chan :=
  mkChan (lastStable w !!! i) (debouncing w !!! i) (lastChangeMs w !!! i).

(** What the body of the [for] of [loop()] does to the state of its
    channel, and whether it calls [onPressed]: the projection of [scan] on
    one channel (see [scan_chan]). *)
Definition debounce_update (c : Chan) (raw : bool) (now : Z) : Chan * bool :=
  if negb (eqb raw (c_stable c)) then
    if negb (c_debouncing c) then
      (mkChan (c_stable c) true now, false)
    else if DEBOUNCE_MS <=? sub32 now (c_lastChangeMs c) then
      (mkChan raw false (c_lastChangeMs c), eqb raw LOW)
    else (c, false)
  else (mkChan (c_stable c) false (c_lastChangeMs c), false).

(** Successive samples [(raw, now)] of one channel: the state reached and
    the number of calls of [onPressed]. *)
Fixpoint debounce_run (c : Chan) (samples : list (bool * Z)) : Chan * nat :=
  match samples with
  | [] => (c, 0%nat)
  | (raw, now) :: rest =>
      let u := debounce_update c raw now in
      let r := debounce_run (fst u) rest in
      (fst r, ((if snd u then 1 else 0) + snd r)%nat)
  end.

(** A pass [s] of [loop()]: the reading of [millis()] at its start, and
    the level that [digitalRead] finds on the pin of channel [i]. *)
Definition clock_of (s : Z * (Z -> bool)) : Z := fst s.
Definition level_of (i : nat) (s : Z * (Z -> bool)) : bool :=
  snd s (SWITCH_PINS !!! i).

(** The samples of channel [i] in the passes [samples] of [loop()]. *)
Definition channel_samples (i : nat) (samples : list (Z * (Z -> bool)))
  : list (bool * Z) :=
  map (fun s => (level_of i s, clock_of s)) samples.

(** Two channel states that no later sample can tell apart: the start time
    only counts while debouncing. *)
Definition chan_equiv (c1 c2 : Chan) : Prop :=
  c_stable c1 = c_stable c2 /\ c_debouncing c1 = c_debouncing c2 /\
  (c_debouncing c1 = true -> c_lastChangeMs c1 = c_lastChangeMs c2).

(** ** More readings of the output *)

(** The indices [onPressed] was called with, in order. *)
Fixpoint pressed_indices (es : list Event) : list nat :=
  match es with
  | [] => []
  | Pressed j :: es' => j :: pressed_indices es'
  | _ :: es' => pressed_indices es'
  end.

(** The delays of each command, added up. *)
Definition hadouken_ms : Z := STEP + GAP + STEP + GAP + STEP / 2 + TAP + GAP.
Definition shoryu_ms : Z :=
  STEP / 2 + GAP / 2 + STEP / 2 + GAP / 2 + STEP + TAP + GAP.
Definition tatsu_ms : Z := STEP + GAP + STEP + GAP + STEP / 2 + TAP + GAP.

(** The calls of [onPressed] that start a command. *)
Definition macro_presses (es : list Event) : nat :=
  (press_count BTN_HADOU es + press_count BTN_SHORYU es
   + press_count BTN_TATSU es)%nat.

(** The time the commands started in [es] spend in [delay]. *)
Definition blocking_ms (es : list Event) : Z :=
  hadouken_ms * Z.of_nat (press_count BTN_HADOU es)
  + shoryu_ms * Z.of_nat (press_count BTN_SHORYU es)
  + tatsu_ms * Z.of_nat (press_count BTN_TATSU es).

(** [facing] after [n] flips. *)
Definition flipped (facing : bool) (n : nat) : bool :=
  if Nat.even n then facing else negb facing.

(** The key codes the dispatcher can put into a report: no key, the three
    direction keys of the commands and the three attack keys of
    [onPressed]. *)
Definition dispatched_key (k : Z) : bool :=
  existsb (Z.eqb k) [0; KEY_DOWN; KEY_LEFT; KEY_RIGHT; LP; MP; LK].

(** An event as [onPressed] makes them: reports with id 1, no modifier and
    six key codes out of [dispatched_key], releases with id 1, delays of
    1 to STEP ms. *)
Definition dispatch_event_ok (e : Event) : bool :=
  match e with
  | KeyboardReport id modifier kc =>
      (id =? 1) && (modifier =? 0) && (length kc =? 6)%nat
      && forallb dispatched_key kc
  | KeyboardRelease id => id =? 1
  | Delay ms => (0 <? ms) && (ms <=? STEP)
  | Pressed _ => false
  end.

(** Two worlds with the same facing direction and the same USB stack at
    the same point. *)
Definition same_env (w w' : World) : Prop :=
  facingRight w' = facingRight w /\ usb_ready w' = usb_ready w /\
  ready_calls w' = ready_calls w.

(** ** The output functions *)

Lemma delays_app es1 es2 : delays (es1 ++ es2) = delays es1 ++ delays es2.
Proof.
  induction es1 as [|e es1 IH]; [reflexivity|].
  destruct e; simpl; rewrite IH; reflexivity.
Qed.

Lemma press_count_app i es1 es2 :
  press_count i (es1 ++ es2) = (press_count i es1 + press_count i es2)%nat.
Proof.
  induction es1 as [|e es1 IH]; [reflexivity|].
  destruct e; simpl; rewrite IH; lia.
Qed.

Lemma reports_cons e es :
  reports (e :: es) = if is_send e then e :: reports es else reports es.
Proof. reflexivity. Qed.

Lemma skip_unready_app rdy n es1 es2 :
  skip_unready rdy n (es1 ++ es2) =
  skip_unready rdy n es1
    ++ skip_unready rdy (n + length (reports es1)) es2.
Proof.
  revert n; induction es1 as [|e es1 IH]; intros n.
  - simpl. rewrite Nat.add_0_r; reflexivity.
  - rewrite reports_cons. simpl. destruct (is_send e); simpl.
    + rewrite IH, <- app_assoc.
      replace (S n + length (reports es1))%nat
        with (n + S (length (reports es1)))%nat by lia.
      reflexivity.
    + rewrite IH. reflexivity.
Qed.

Lemma skip_unready_always n es : skip_unready always_ready n es = es.
Proof.
  revert n; induction es as [|e es IH]; intros n; simpl; [reflexivity|].
  destruct (is_send e); simpl; rewrite IH; reflexivity.
Qed.

Lemma delays_skip_unready rdy n es : delays (skip_unready rdy n es) = delays es.
Proof.
  revert n; induction es as [|e es IH]; intros n; simpl; [reflexivity|].
  destruct e; simpl; try (rewrite IH; reflexivity);
    rewrite delays_app, IH; destruct (rdy n); reflexivity.
Qed.

Lemma press_count_skip_unready i rdy n es :
  press_count i (skip_unready rdy n es) = press_count i es.
Proof.
  revert n; induction es as [|e es IH]; intros n; simpl; [reflexivity|].
  destruct e; simpl; try (rewrite IH; reflexivity);
    rewrite press_count_app, IH; destruct (rdy n); reflexivity.
Qed.

Lemma reports_app es1 es2 : reports (es1 ++ es2) = reports es1 ++ reports es2.
Proof.
  induction es1 as [|e es1 IH]; [reflexivity|].
  simpl. destruct (is_send e); simpl; rewrite IH; reflexivity.
Qed.

(** ** The sequencer plays its scripts *)

Lemma add_ready_calls_0 w : add_ready_calls 0 w = w.
Proof.
  destruct w; unfold add_ready_calls; simpl. rewrite Nat.add_0_r. reflexivity.
Qed.

Lemma add_ready_calls_add a b w :
  add_ready_calls b (add_ready_calls a w) = add_ready_calls (a + b) w.
Proof. unfold add_ready_calls; simpl. f_equal. lia. Qed.

Lemma plays_bind m1 m2 s1 s2 :
  plays m1 s1 -> plays m2 s2 -> plays (m1 ;; m2) (fun f => s1 f ++ s2 f).
Proof.
  intros H1 H2 w. unfold bind. rewrite H1. simpl. rewrite H2. simpl.
  rewrite add_ready_calls_add, reports_app, length_app, skip_unready_app.
  reflexivity.
Qed.

Lemma plays_eq m s s' : (forall f, s f = s' f) -> plays m s -> plays m s'.
Proof. intros E H w. rewrite <- E. apply H. Qed.

Lemma plays_delay ms : plays (delay ms) (fun _ => [Delay ms]).
Proof. intros w. unfold delay, emit. simpl. rewrite add_ready_calls_0. reflexivity. Qed.

Lemma sendKeys_eq keys count w :
  sendKeys keys count w =
  mkRes tt (next_ready_call w)
        (if usb_ready w (ready_calls w)
         then [KeyboardReport 1 0 (fill_report keys count)] else []).
Proof.
  unfold sendKeys, bind, ready. simpl.
  destruct (usb_ready w (ready_calls w)); reflexivity.
Qed.

Lemma releaseAll_eq w :
  releaseAll w =
  mkRes tt (next_ready_call w)
        (if usb_ready w (ready_calls w) then [KeyboardRelease 1] else []).
Proof.
  unfold releaseAll, bind, ready. simpl.
  destruct (usb_ready w (ready_calls w)); reflexivity.
Qed.

Lemma next_ready_call_add w : next_ready_call w = add_ready_calls 1 w.
Proof. unfold next_ready_call, add_ready_calls. f_equal. lia. Qed.

Lemma plays_releaseAll : plays releaseAll (fun _ => [KeyboardRelease 1]).
Proof.
  intros w. rewrite releaseAll_eq, next_ready_call_add. simpl.
  rewrite app_nil_r. reflexivity.
Qed.

Lemma plays_hold ks ms :
  plays (hold ks ms)
        (fun _ => [KeyboardReport 1 0
                     (fill_report (fst (collect_keys ks)) (snd (collect_keys ks)));
                   Delay ms]).
Proof.
  intros w. unfold hold. destruct (collect_keys ks) as [tmp i]. simpl.
  unfold bind. rewrite sendKeys_eq, next_ready_call_add. simpl.
  destruct (usb_ready w (ready_calls w)); reflexivity.
Qed.

Lemma plays_FORWARD (k : Z -> M unit) (s : Z -> bool -> list Event) :
  (forall f, plays (k f) (s f)) ->
  plays (f <- FORWARD ;; k f) (fun facing => s (forward_key facing) facing).
Proof. intros H w. unfold bind, FORWARD, gets. simpl. rewrite H. reflexivity. Qed.

Lemma plays_BACKWARD (k : Z -> M unit) (s : Z -> bool -> list Event) :
  (forall b, plays (k b) (s b)) ->
  plays (b <- BACKWARD ;; k b) (fun facing => s (backward_key facing) facing).
Proof. intros H w. unfold bind, BACKWARD, gets. simpl. rewrite H. reflexivity. Qed.

Ltac play_step :=
  first
    [ apply plays_delay
    | apply plays_releaseAll
    | apply plays_hold
    | apply plays_FORWARD; intros ?
    | apply plays_BACKWARD; intros ? ].

Lemma plays_tap k ms :
  plays (tap k ms)
        (fun _ => [KeyboardReport 1 0 [k; 0; 0; 0; 0; 0]; Delay ms;
                   KeyboardRelease 1; Delay GAP]).
Proof.
  eapply plays_eq; [|unfold tap; repeat (play_step || apply plays_bind)].
  reflexivity.
Qed.

Ltac play := repeat first [ play_step | apply plays_tap | apply plays_bind ].

Lemma plays_cmd_hadouken punch :
  plays (cmd_hadouken punch)
        (fun facing => hadouken_script (forward_key facing) punch).
Proof.
  eapply plays_eq; [|unfold cmd_hadouken, hold_df; play].
  reflexivity.
Qed.

Lemma plays_cmd_shoryu punch :
  plays (cmd_shoryu punch)
        (fun facing => shoryu_script (forward_key facing) punch).
Proof.
  eapply plays_eq; [|unfold cmd_shoryu, hold_df; play].
  reflexivity.
Qed.

Lemma plays_cmd_tatsu kick :
  plays (cmd_tatsu kick)
        (fun facing => tatsu_script (backward_key facing) kick).
Proof.
  eapply plays_eq; [|unfold cmd_tatsu, hold_db; play].
  reflexivity.
Qed.

Lemma skip_unready_ready rdy n es :
  (forall k, (k < length (reports es))%nat -> rdy (n + k)%nat = true) ->
  skip_unready rdy n es = es.
Proof.
  revert n; induction es as [|e es IH]; intros n H; [reflexivity|].
  simpl in *. destruct (is_send e); simpl in *.
  - rewrite <- (Nat.add_0_r n) at 1. rewrite H by lia. simpl. f_equal.
    apply IH. intros k Hk.
    replace (S n + k)%nat with (n + S k)%nat by lia. apply H. lia.
  - f_equal. apply IH. exact H.
Qed.

(** ** The macros on examples *)

Example hold_sends_six_keys_at_most :
  out (hold [1; 2; 3; 4; 5; 6; 7] 10 w0) =
  [KeyboardReport 1 0 [1; 2; 3; 4; 5; 6]; Delay 10].
Proof. reflexivity. Qed.

Example hadouken_facing_left :
  out (cmd_hadouken LP (set_facingRight false w0)) =
  [ KeyboardReport 1 0 [KEY_DOWN; 0; 0; 0; 0; 0]; Delay 28;
    KeyboardRelease 1; Delay 16;
    KeyboardReport 1 0 [KEY_DOWN; KEY_LEFT; 0; 0; 0; 0]; Delay 28;
    KeyboardRelease 1; Delay 16;
    KeyboardReport 1 0 [KEY_LEFT; 0; 0; 0; 0; 0]; Delay 14;
    KeyboardReport 1 0 [LP; 0; 0; 0; 0; 0]; Delay 22;
    KeyboardRelease 1; Delay 16;
    KeyboardRelease 1 ].
Proof. reflexivity. Qed.

Example shoryu_facing_right :
  out (onPressed BTN_SHORYU w0) =
  [ KeyboardReport 1 0 [KEY_RIGHT; 0; 0; 0; 0; 0]; Delay 14;
    KeyboardRelease 1; Delay 8;
    KeyboardReport 1 0 [KEY_DOWN; 0; 0; 0; 0; 0]; Delay 14;
    KeyboardRelease 1; Delay 8;
    KeyboardReport 1 0 [KEY_DOWN; KEY_RIGHT; 0; 0; 0; 0]; Delay 28;
    KeyboardReport 1 0 [MP; 0; 0; 0; 0; 0]; Delay 22;
    KeyboardRelease 1; Delay 16;
    KeyboardRelease 1 ].
Proof. reflexivity. Qed.

Example tatsu_facing_right :
  out (onPressed BTN_TATSU w0) =
  [ KeyboardReport 1 0 [KEY_DOWN; 0; 0; 0; 0; 0]; Delay 28;
    KeyboardRelease 1; Delay 16;
    KeyboardReport 1 0 [KEY_DOWN; KEY_LEFT; 0; 0; 0; 0]; Delay 28;
    KeyboardRelease 1; Delay 16;
    KeyboardReport 1 0 [KEY_LEFT; 0; 0; 0; 0; 0]; Delay 14;
    KeyboardReport 1 0 [LK; 0; 0; 0; 0; 0]; Delay 22;
    KeyboardRelease 1; Delay 16;
    KeyboardRelease 1 ].
Proof. reflexivity. Qed.

(** A press of channel 0 seen through the whole scanner: the pass that
    finds the window over calls [onPressed(0)], which plays the hadouken. *)
Example press_plays_hadouken :
  out (run [(100, fun p => negb (p =? 13)); (115, fun p => negb (p =? 13));
            (131, fun p => negb (p =? 13)); (140, fun p => negb (p =? 13))]
           w0) =
  Pressed BTN_HADOU :: hadouken_script KEY_RIGHT LP.
Proof. reflexivity. Qed.

(** ** The quarter-circle-forward macro *)

(** C1, as the code has it: when the transport is ready at each of the
    eight sends of [cmd_hadouken(LP)], the output is exactly Down held STEP
    ms, release, gap GAP ms, Down and Right held STEP ms, release, gap GAP
    ms, Right held STEP/2 ms, LP alone held TAP ms, release, gap GAP ms,
    release; when facing left, Left stands where Right stood and nothing
    else changes. *)
Theorem hadouken_LP_sequence_when_ready (w : World) :
  (forall k, (k < 8)%nat -> usb_ready w (ready_calls w + k)%nat = true) ->
  (facingRight w = true ->
   out (cmd_hadouken LP w) = hadouken_script KEY_RIGHT LP) /\
  (facingRight w = false ->
   out (cmd_hadouken LP w) = hadouken_script KEY_LEFT LP).
Proof.
  intros Hready. rewrite plays_cmd_hadouken. cbn [out].
  split; intros ->; apply skip_unready_ready; exact Hready.
Qed.

Lemma hadouken_LP_sequence_when_ready_witness :
  out (cmd_hadouken LP w0) =
  [ KeyboardReport 1 0 [KEY_DOWN; 0; 0; 0; 0; 0]; Delay 28;
    KeyboardRelease 1; Delay 16;
    KeyboardReport 1 0 [KEY_DOWN; KEY_RIGHT; 0; 0; 0; 0]; Delay 28;
    KeyboardRelease 1; Delay 16;
    KeyboardReport 1 0 [KEY_RIGHT; 0; 0; 0; 0; 0]; Delay 14;
    KeyboardReport 1 0 [LP; 0; 0; 0; 0; 0]; Delay 22;
    KeyboardRelease 1; Delay 16;
    KeyboardRelease 1 ].
Proof.
  apply (hadouken_LP_sequence_when_ready w0).
  - intros k Hk. reflexivity.
  - reflexivity.
Defined.

(** C1 as stated fails: facing right, with a transport that is never
    ready, [cmd_hadouken(LP)] emits no report at all, only its delays. *)
Lemma hadouken_LP_sequence_counterexample :
  facingRight w_unready = true /\
  out (cmd_hadouken LP w_unready) = [Delay 28; Delay 16; Delay 28; Delay 16;
                                     Delay 14; Delay 22; Delay 16] /\
  out (cmd_hadouken LP w_unready) <> hadouken_script KEY_RIGHT LP.
Proof. repeat split. discriminate. Qed.

(** C6: whatever the attack key, the facing direction and the transport,
    the delays of [cmd_hadouken] add up to
    STEP + GAP + STEP + GAP + STEP/2 + TAP + GAP milliseconds. *)
Theorem hadouken_total_delay (punch : Z) (w : World) :
  delays (out (cmd_hadouken punch w)) =
    [STEP; GAP; STEP; GAP; STEP / 2; TAP; GAP] /\
  total (delays (out (cmd_hadouken punch w))) =
    STEP + GAP + STEP + GAP + STEP / 2 + TAP + GAP.
Proof.
  rewrite plays_cmd_hadouken. cbn [out]. rewrite delays_skip_unready.
  split; reflexivity.
Qed.

(** ** Sends while the transport is not ready *)

Lemma plays_timing_independent m s : plays m s -> timing_independent m.
Proof.
  intros H w rdy. rewrite !H. cbn [out]. rewrite !delays_skip_unready. reflexivity.
Qed.

Lemma plays_drops_unready_sends m s : plays m s -> drops_unready_sends m.
Proof.
  intros H w. rewrite !H. cbn [out]. rewrite skip_unready_always. reflexivity.
Qed.

(** C5: a send that finds the transport not ready does nothing but use up
    that one call of [ready()]: no report, no second try; a later send
    emits its own report only.  The output of each macro is its all-ready
    output less the skipped sends, and its delays are the same whatever
    [ready()] answers. *)
Theorem unready_send_skipped_timing_kept :
  (forall keys count w,
     sendKeys keys count w =
     mkRes tt (next_ready_call w)
           (if usb_ready w (ready_calls w)
            then [KeyboardReport 1 0 (fill_report keys count)] else [])) /\
  (forall w,
     releaseAll w =
     mkRes tt (next_ready_call w)
           (if usb_ready w (ready_calls w) then [KeyboardRelease 1] else [])) /\
  (forall ks ms w, delays (out (hold ks ms w)) = [ms]) /\
  (forall k ms w, delays (out (tap k ms w)) = [ms; GAP]) /\
  (forall k,
     timing_independent (cmd_hadouken k) /\ drops_unready_sends (cmd_hadouken k) /\
     timing_independent (cmd_shoryu k) /\ drops_unready_sends (cmd_shoryu k) /\
     timing_independent (cmd_tatsu k) /\ drops_unready_sends (cmd_tatsu k)).
Proof.
  split; [exact sendKeys_eq|].
  split; [exact releaseAll_eq|].
  split; [intros; rewrite plays_hold; cbn [out]; apply delays_skip_unready|].
  split; [intros; rewrite plays_tap; cbn [out]; apply delays_skip_unready|].
  intros k.
  pose proof (plays_cmd_hadouken k) as Hh.
  pose proof (plays_cmd_shoryu k) as Hs.
  pose proof (plays_cmd_tatsu k) as Ht.
  repeat split;
    first [ eapply plays_timing_independent; eassumption
          | eapply plays_drops_unready_sends; eassumption ].
Qed.

(** ** The dispatcher *)

Lemma plays_frame m s w :
  plays m s ->
  facingRight (st (m w)) = facingRight w /\
  lastStable (st (m w)) = lastStable w /\
  debouncing (st (m w)) = debouncing w /\
  lastChangeMs (st (m w)) = lastChangeMs w /\
  forall i, press_count i (out (m w)) = press_count i (s (facingRight w)).
Proof.
  intros H. specialize (H w). rewrite H. cbn [st out]. repeat split.
  intros i. apply press_count_skip_unready.
Qed.

Lemma onPressed_frame idx w :
  lastStable (st (onPressed idx w)) = lastStable w /\
  debouncing (st (onPressed idx w)) = debouncing w /\
  lastChangeMs (st (onPressed idx w)) = lastChangeMs w /\
  forall i, press_count i (out (onPressed idx w)) = 0%nat.
Proof.
  unfold onPressed.
  destruct (idx =? BTN_HADOU)%nat;
    [destruct (plays_frame _ _ w (plays_cmd_hadouken LP)) as (_ & ? & ? & ? & Hp);
     repeat split; try assumption; intros i; rewrite Hp; reflexivity|].
  destruct (idx =? BTN_SHORYU)%nat;
    [destruct (plays_frame _ _ w (plays_cmd_shoryu MP)) as (_ & ? & ? & ? & Hp);
     repeat split; try assumption; intros i; rewrite Hp; reflexivity|].
  destruct (idx =? BTN_TATSU)%nat;
    [destruct (plays_frame _ _ w (plays_cmd_tatsu LK)) as (_ & ? & ? & ? & Hp);
     repeat split; try assumption; intros i; rewrite Hp; reflexivity|].
  destruct (idx =? BTN_TOGGLE_FACE)%nat; repeat split.
Qed.

(** C4: a press dispatched to the facing channel flips [facingRight] once
    and does nothing else: no report, no release, no delay, no call of
    [ready()], and the debounce state is as it was.  So the pass of the
    scanner that commits a press of that channel puts out the mark of the
    call of [onPressed] and nothing more. *)
Theorem toggle_face_flips_once_no_output
    (w : World) (now : Z) (pins : Z -> bool) :
  (facingRight (st (onPressed BTN_TOGGLE_FACE w)) = negb (facingRight w) /\
   out (onPressed BTN_TOGGLE_FACE w) = [] /\
   ready_calls (st (onPressed BTN_TOGGLE_FACE w)) = ready_calls w /\
   lastStable (st (onPressed BTN_TOGGLE_FACE w)) = lastStable w /\
   debouncing (st (onPressed BTN_TOGGLE_FACE w)) = debouncing w /\
   lastChangeMs (st (onPressed BTN_TOGGLE_FACE w)) = lastChangeMs w) /\
  (pins (SWITCH_PINS !!! BTN_TOGGLE_FACE) = LOW ->
   lastStable w !!! BTN_TOGGLE_FACE = HIGH ->
   debouncing w !!! BTN_TOGGLE_FACE = true ->
   DEBOUNCE_MS <= sub32 now (lastChangeMs w !!! BTN_TOGGLE_FACE) ->
   out (scan now pins BTN_TOGGLE_FACE w) = [Pressed BTN_TOGGLE_FACE] /\
   facingRight (st (scan now pins BTN_TOGGLE_FACE w)) = negb (facingRight w) /\
   ready_calls (st (scan now pins BTN_TOGGLE_FACE w)) = ready_calls w).
Proof.
  split; [repeat split|].
  intros Hp Hs Hd Ht.
  unfold scan, bind, gets, modify, emit, ret. cbn [val st out].
  rewrite Hp, Hs. cbn. rewrite Hd. cbn.
  destruct (Z.leb_spec DEBOUNCE_MS (sub32 now (lastChangeMs w !!! BTN_TOGGLE_FACE)));
    [|lia].
  cbn. repeat split.
Qed.

Lemma toggle_face_flips_once_no_output_witness :
  out (scan (millis (U32 + 25)) all_low BTN_TOGGLE_FACE w_pending) =
    [Pressed BTN_TOGGLE_FACE] /\
  facingRight (st (scan (millis (U32 + 25)) all_low BTN_TOGGLE_FACE w_pending)) =
    false.
Proof.
  destruct (toggle_face_flips_once_no_output w_pending (millis (U32 + 25)) all_low)
    as (_ & H).
  destruct H as (H1 & H2 & _).
  - reflexivity.
  - reflexivity.
  - reflexivity.
  - vm_compute. discriminate.
  - split; [exact H1|exact H2].
Defined.

(** C8: two presses of the facing channel give back the world they
    started from, so [facingRight] has its first value and every macro
    puts out what it would have put out before the two presses. *)
Theorem toggle_face_twice_restores (w : World) :
  let w2 := st (onPressed BTN_TOGGLE_FACE (st (onPressed BTN_TOGGLE_FACE w))) in
  facingRight w2 = facingRight w /\
  w2 = w /\
  (forall k, out (cmd_hadouken k w2) = out (cmd_hadouken k w)) /\
  (forall k, out (cmd_shoryu k w2) = out (cmd_shoryu k w)) /\
  (forall k, out (cmd_tatsu k w2) = out (cmd_tatsu k w)) /\
  (forall idx, out (onPressed idx w2) = out (onPressed idx w)).
Proof.
  assert (E : st (onPressed BTN_TOGGLE_FACE (st (onPressed BTN_TOGGLE_FACE w))) = w).
  { destruct w as [f a b c r n]. cbn. unfold set_facingRight. cbn.
    rewrite negb_involutive. reflexivity. }
  cbv zeta. rewrite E. repeat split.
Qed.

(** C9: a press dispatched with an index that has no action, channel 4
    among them, changes nothing and puts out nothing. *)
Theorem unmapped_index_is_noop (idx : nat) (w : World) :
  ~ In idx [BTN_HADOU; BTN_SHORYU; BTN_TATSU; BTN_TOGGLE_FACE] ->
  onPressed idx w = mkRes tt w [].
Proof.
  intros H. unfold onPressed.
  destruct (Nat.eqb_spec idx BTN_HADOU) as [->|_]; [exfalso; apply H; simpl; tauto|].
  destruct (Nat.eqb_spec idx BTN_SHORYU) as [->|_]; [exfalso; apply H; simpl; tauto|].
  destruct (Nat.eqb_spec idx BTN_TATSU) as [->|_]; [exfalso; apply H; simpl; tauto|].
  destruct (Nat.eqb_spec idx BTN_TOGGLE_FACE) as [->|_]; [exfalso; apply H; simpl; tauto|].
  reflexivity.
Qed.

Lemma unmapped_index_is_noop_witness :
  (4 < N)%nat /\ onPressed 4 w0 = mkRes tt w0 [].
Proof.
  split; [unfold N; lia|].
  apply (unmapped_index_is_noop 4 w0).
  unfold BTN_HADOU, BTN_SHORYU, BTN_TATSU, BTN_TOGGLE_FACE. simpl. lia.
Defined.

(** ** The scanner, one channel at a time *)

Lemma wf_setup pins rdy : wf (setup pins rdy).
Proof. repeat split. Qed.

Lemma scan_wf now pins j w : wf w -> wf (st (scan now pins j w)).
Proof.
  intros (H1 & H2 & H3). unfold scan, bind, gets, modify, emit, ret. cbn.
  destruct (eqb _ _); cbn; [unfold wf; cbn; rewrite length_insert; auto|].
  destruct (debouncing w !!! j); cbn;
    [|unfold wf; cbn; rewrite !length_insert; auto].
  destruct (DEBOUNCE_MS <=? _); cbn; [|unfold wf; auto].
  destruct (eqb _ LOW); cbn.
  - destruct (onPressed_frame j
                (set_lastStable j (pins (SWITCH_PINS !!! j))
                   (set_debouncing j false w))) as (E1 & E2 & E3 & _).
    unfold wf. rewrite E1, E2, E3. cbn. rewrite !length_insert. auto.
  - unfold wf; cbn. rewrite !length_insert. auto.
Qed.

Lemma scan_chan now pins i w :
  wf w -> (i < N)%nat ->
  chan i (st (scan now pins i w)) =
    fst (debounce_update (chan i w) (pins (SWITCH_PINS !!! i)) now) /\
  press_count i (out (scan now pins i w)) =
    (if snd (debounce_update (chan i w) (pins (SWITCH_PINS !!! i)) now)
     then 1 else 0)%nat.
Proof.
  intros (H1 & H2 & H3) Hi.
  unfold scan, debounce_update, bind, gets, modify, emit, ret, chan. cbn.
  destruct (eqb _ _); cbn.
  { rewrite list_lookup_total_insert_eq by lia. auto. }
  destruct (debouncing w !!! i) eqn:Hd; cbn.
  2:{ rewrite !list_lookup_total_insert_eq by lia. auto. }
  destruct (DEBOUNCE_MS <=? _); cbn; [|rewrite Hd; auto].
  destruct (eqb _ LOW); cbn.
  - destruct (onPressed_frame i
                (set_lastStable i (pins (SWITCH_PINS !!! i))
                   (set_debouncing i false w))) as (E1 & E2 & E3 & E4).
    rewrite E1, E2, E3, E4. cbn.
    rewrite !list_lookup_total_insert_eq by lia.
    rewrite Nat.eqb_refl. auto.
  - rewrite !list_lookup_total_insert_eq by lia. auto.
Qed.

Lemma scan_chan_other now pins j i w :
  j <> i ->
  chan i (st (scan now pins j w)) = chan i w /\
  press_count i (out (scan now pins j w)) = 0%nat.
Proof.
  intros Hne.
  unfold scan, bind, gets, modify, emit, ret, chan. cbn.
  destruct (eqb _ _); cbn.
  { rewrite list_lookup_total_insert_ne by assumption. auto. }
  destruct (debouncing w !!! j); cbn.
  2:{ rewrite !list_lookup_total_insert_ne by assumption. auto. }
  destruct (DEBOUNCE_MS <=? _); cbn; [|auto].
  destruct (eqb _ LOW); cbn.
  - destruct (onPressed_frame j
                (set_lastStable j (pins (SWITCH_PINS !!! j))
                   (set_debouncing j false w))) as (E1 & E2 & E3 & E4).
    rewrite E1, E2, E3, E4. cbn.
    rewrite !list_lookup_total_insert_ne by assumption.
    destruct (Nat.eqb_spec j i); [contradiction|]. auto.
  - rewrite !list_lookup_total_insert_ne by assumption. auto.
Qed.

Lemma for_each_app {A} (xs ys : list A) (body : A -> M unit) w :
  st (for_each (xs ++ ys) body w) = st (for_each ys body (st (for_each xs body w))) /\
  out (for_each (xs ++ ys) body w) =
    out (for_each xs body w) ++ out (for_each ys body (st (for_each xs body w))).
Proof.
  revert w; induction xs as [|x xs IH]; intros w.
  - split; reflexivity.
  - change (for_each ((x :: xs) ++ ys) body w)
      with (bind (body x) (fun _ => for_each (xs ++ ys) body) w).
    change (for_each (x :: xs) body w)
      with (bind (body x) (fun _ => for_each xs body) w).
    unfold bind. cbn [st out val].
    destruct (IH (st (body x w))) as [-> ->].
    rewrite app_assoc. split; reflexivity.
Qed.

Lemma scans_wf now pins js w :
  wf w -> wf (st (for_each js (scan now pins) w)).
Proof.
  revert w; induction js as [|j js IH]; intros w H; [exact H|].
  cbn [for_each]. unfold bind. cbn [st]. apply IH, scan_wf, H.
Qed.

Lemma scans_chan_other now pins js i w :
  ~ In i js ->
  chan i (st (for_each js (scan now pins) w)) = chan i w /\
  press_count i (out (for_each js (scan now pins) w)) = 0%nat.
Proof.
  revert w; induction js as [|j js IH]; intros w Hn; [split; reflexivity|].
  cbn [for_each]. unfold bind. cbn [st out].
  assert (Hji : j <> i) by (intros ->; apply Hn; left; reflexivity).
  assert (Hjs : ~ In i js) by (intros ?; apply Hn; right; assumption).
  destruct (IH (st (scan now pins j w)) Hjs) as [-> E].
  destruct (scan_chan_other now pins j i w Hji) as [-> E'].
  rewrite press_count_app, E, E'. split; reflexivity.
Qed.

Lemma seq_split_at i n :
  (i < n)%nat -> seq 0 n = seq 0 i ++ i :: seq (S i) (n - S i).
Proof.
  intros H. replace n with (i + S (n - S i))%nat at 1 by lia.
  rewrite seq_app. reflexivity.
Qed.

(** One pass of [loop()] seen from channel [i]: the other channels, and
    the macros they start, leave its state alone. *)
Lemma loop_chan now pins i w :
  wf w -> (i < N)%nat ->
  chan i (st (loop now pins w)) =
    fst (debounce_update (chan i w) (pins (SWITCH_PINS !!! i)) now) /\
  press_count i (out (loop now pins w)) =
    (if snd (debounce_update (chan i w) (pins (SWITCH_PINS !!! i)) now)
     then 1 else 0)%nat.
Proof.
  intros Hw Hi. unfold loop. rewrite (seq_split_at i N Hi).
  destruct (for_each_app (seq 0 i) (i :: seq (S i) (N - S i))
              (scan now pins) w) as [-> ->].
  assert (Hb : ~ In i (seq 0 i)) by (rewrite in_seq; lia).
  assert (Ha : ~ In i (seq (S i) (N - S i))) by (rewrite in_seq; lia).
  destruct (scans_chan_other now pins _ i w Hb) as [E1 P1].
  set (w1 := st (for_each (seq 0 i) (scan now pins) w)) in *.
  assert (Hw1 : wf w1) by (apply scans_wf, Hw).
  cbn [for_each]. unfold bind. cbn [st out].
  destruct (scan_chan now pins i w1 Hw1 Hi) as [E2 P2].
  rewrite E1 in E2, P2.
  destruct (scans_chan_other now pins _ i (st (scan now pins i w1)) Ha) as [E3 P3].
  rewrite E3, E2, !press_count_app, P1, P2, P3. split; [reflexivity|].
  cbn. rewrite Nat.add_0_r. reflexivity.
Qed.

Lemma loop_wf now pins w : wf w -> wf (st (loop now pins w)).
Proof. apply scans_wf. Qed.

Lemma run_wf samples w : wf w -> wf (st (run samples w)).
Proof.
  revert w; induction samples as [|s samples IH]; intros w H; [exact H|].
  unfold run. cbn [for_each]. unfold bind. cbn [st]. apply IH, loop_wf, H.
Qed.

(** Successive passes of [loop()] seen from channel [i]. *)
Lemma run_chan samples i w :
  wf w -> (i < N)%nat ->
  chan i (st (run samples w)) =
    fst (debounce_run (chan i w) (channel_samples i samples)) /\
  press_count i (out (run samples w)) =
    snd (debounce_run (chan i w) (channel_samples i samples)).
Proof.
  intros Hw Hi. revert w Hw.
  induction samples as [|[now pins] samples IH]; intros w Hw; [split; reflexivity|].
  unfold run. cbn [for_each channel_samples map debounce_run fst snd].
  unfold bind. cbn [st out].
  destruct (loop_chan now pins i w Hw Hi) as [E P].
  destruct (IH (st (loop now pins w)) (loop_wf _ _ _ Hw)) as [E' P'].
  unfold run in E', P'. rewrite E', press_count_app, P, P', E.
  split; reflexivity.
Qed.

Lemma run_app xs ys w :
  st (run (xs ++ ys) w) = st (run ys (st (run xs w))) /\
  out (run (xs ++ ys) w) = out (run xs w) ++ out (run ys (st (run xs w))).
Proof. apply for_each_app. Qed.

(** ** The debouncer of one channel *)

Lemma debounce_run_app c xs ys :
  debounce_run c (xs ++ ys) =
  (fst (debounce_run (fst (debounce_run c xs)) ys),
   (snd (debounce_run c xs) + snd (debounce_run (fst (debounce_run c xs)) ys))%nat).
Proof.
  revert c; induction xs as [|[raw now] xs IH]; intros c.
  - cbn. destruct (debounce_run c ys); reflexivity.
  - cbn [app debounce_run fst snd]. rewrite IH. cbn [fst snd].
    f_equal. lia.
Qed.

(** Samples at the stable level keep a settled channel settled. *)
Lemma debounce_run_settled c samples :
  c_debouncing c = false ->
  Forall (fun s => fst s = c_stable c) samples ->
  debounce_run c samples = (c, 0%nat).
Proof.
  intros Hd H. induction H as [|[raw now] samples Hx _ IH]; [reflexivity|].
  cbn [fst] in Hx. subst raw. cbn [debounce_run].
  unfold debounce_update. rewrite eqb_reflx. cbn [negb fst snd].
  destruct c as [s d t]. cbn in *. subst d. rewrite IH. reflexivity.
Qed.

(** Samples off the stable level, each inside the window counted from the
    start of the transition, leave a channel in transition as it is. *)
Lemma debounce_run_pending c samples :
  c_debouncing c = true ->
  Forall (fun s => fst s <> c_stable c /\
                   sub32 (snd s) (c_lastChangeMs c) < DEBOUNCE_MS) samples ->
  debounce_run c samples = (c, 0%nat).
Proof.
  intros Hd H. induction H as [|[raw now] samples [Hr Ht] _ IH]; [reflexivity|].
  cbn [fst snd] in Hr, Ht. cbn [debounce_run]. unfold debounce_update.
  destruct (eqb_spec raw (c_stable c)) as [E|_]; [contradiction|].
  rewrite Hd. cbn [negb].
  destruct (Z.leb_spec DEBOUNCE_MS (sub32 now (c_lastChangeMs c))); [lia|].
  cbn [fst snd]. rewrite IH. reflexivity.
Qed.

(** Samples at the other level commit it at the first sample that finds
    the window over, and only there is [onPressed] called, if the level is
    [LOW]. *)
Lemma debounce_run_commit c samples :
  c_debouncing c = true ->
  Forall (fun s => fst s = negb (c_stable c)) samples ->
  Exists (fun s => DEBOUNCE_MS <= sub32 (snd s) (c_lastChangeMs c)) samples ->
  debounce_run c samples =
    (mkChan (negb (c_stable c)) false (c_lastChangeMs c),
     if eqb (negb (c_stable c)) LOW then 1%nat else 0%nat).
Proof.
  intros Hd H. induction H as [|[raw now] samples Hx Hall IH]; intros Hex.
  - inversion Hex.
  - cbn [fst] in Hx. subst raw. cbn [debounce_run]. unfold debounce_update.
    assert (En : eqb (negb (c_stable c)) (c_stable c) = false)
      by (destruct (c_stable c); reflexivity).
    rewrite En, Hd. cbn [negb].
    destruct (Z.leb_spec DEBOUNCE_MS (sub32 now (c_lastChangeMs c))) as [Hle|Hlt].
    + cbn [fst snd]. rewrite debounce_run_settled; [|reflexivity|exact Hall].
      cbn [fst snd]. f_equal. destruct (eqb _ LOW); reflexivity.
    + cbn [fst snd]. rewrite IH; [reflexivity|].
      inversion Hex as [? ? Hh|? ? Ht]; subst; [cbn [snd] in Hh; lia|exact Ht].
Qed.

Lemma debounce_update_equiv c1 c2 raw now :
  chan_equiv c1 c2 ->
  chan_equiv (fst (debounce_update c1 raw now)) (fst (debounce_update c2 raw now)) /\
  snd (debounce_update c1 raw now) = snd (debounce_update c2 raw now).
Proof.
  destruct c1 as [s1 d1 t1], c2 as [s2 d2 t2]. unfold chan_equiv. cbn.
  intros (-> & -> & Ht). unfold debounce_update. cbn.
  destruct (eqb raw s2); cbn; [repeat split; discriminate|].
  destruct d2; cbn; [|repeat split].
  rewrite (Ht eq_refl).
  destruct (DEBOUNCE_MS <=? sub32 now t2); cbn; repeat split; try discriminate.
Qed.

(** Equivalent channel states have the same future. *)
Lemma debounce_run_equiv c1 c2 samples :
  chan_equiv c1 c2 ->
  chan_equiv (fst (debounce_run c1 samples)) (fst (debounce_run c2 samples)) /\
  snd (debounce_run c1 samples) = snd (debounce_run c2 samples).
Proof.
  revert c1 c2; induction samples as [|[raw now] samples IH]; intros c1 c2 H.
  - split; [exact H|reflexivity].
  - cbn [debounce_run fst snd].
    destruct (debounce_update_equiv c1 c2 raw now H) as [H' ->].
    destruct (IH _ _ H') as [H'' ->]. split; [exact H''|reflexivity].
Qed.

(** ** The 32-bit clock *)

Lemma sub32_millis t0 t1 :
  0 <= t1 - t0 < U32 -> sub32 (millis t1) (millis t0) = t1 - t0.
Proof.
  intros H. unfold sub32, millis.
  rewrite <- Zminus_mod. apply Z.mod_small. exact H.
Qed.

(** ** The debouncer in [loop()] *)

Lemma Forall_channel_samples (P : bool * Z -> Prop) i samples :
  Forall (fun s => P (level_of i s, clock_of s)) samples ->
  Forall P (channel_samples i samples).
Proof. intros H. induction H; constructor; assumption. Qed.

Lemma Exists_channel_samples (P : bool * Z -> Prop) i samples :
  Exists (fun s => P (level_of i s, clock_of s)) samples ->
  Exists P (channel_samples i samples).
Proof.
  intros H. induction H; [apply Exists_cons_hd|apply Exists_cons_tl]; assumption.
Qed.

Lemma chan_fields i w :
  lastStable w !!! i = c_stable (chan i w) /\
  debouncing w !!! i = c_debouncing (chan i w) /\
  lastChangeMs w !!! i = c_lastChangeMs (chan i w).
Proof. repeat split. Qed.

(** The first sample off the stable level starts the transition. *)
Lemma debounce_update_start c raw now :
  c_debouncing c = false -> raw <> c_stable c ->
  debounce_update c raw now = (mkChan (c_stable c) true now, false).
Proof.
  intros Hd Hr. unfold debounce_update.
  destruct (eqb_spec raw (c_stable c)); [contradiction|].
  rewrite Hd. reflexivity.
Qed.

Lemma negb_neq (b : bool) : negb b <> b.
Proof. destruct b; discriminate. Qed.

(** C2: a channel at rest whose level changes and stays changed until a
    pass that finds DEBOUNCE_MS or more gone by since the pass that saw the
    change commits the new level, and over all these passes [onPressed] is
    called once if the new level is LOW and not at all if it is HIGH. *)
Theorem sustained_change_presses_once_iff_low
    (i : nat) (w : World) (first : Z * (Z -> bool))
    (rest : list (Z * (Z -> bool))) :
  (i < N)%nat -> wf w ->
  debouncing w !!! i = false ->
  Forall (fun s => level_of i s = negb (lastStable w !!! i)) (first :: rest) ->
  Exists (fun s => DEBOUNCE_MS <= sub32 (clock_of s) (clock_of first)) rest ->
  lastStable (st (run (first :: rest) w)) !!! i = negb (lastStable w !!! i) /\
  debouncing (st (run (first :: rest) w)) !!! i = false /\
  (press_count i (out (run (first :: rest) w)) = 1%nat <->
   negb (lastStable w !!! i) = LOW) /\
  (negb (lastStable w !!! i) = HIGH ->
   press_count i (out (run (first :: rest) w)) = 0%nat).
Proof.
  intros Hi Hw Hd Hall Hex.
  destruct (run_chan (first :: rest) i w Hw Hi) as [E P].
  destruct (chan_fields i w) as (Es & Ed & _).
  destruct (chan_fields i (st (run (first :: rest) w))) as (-> & -> & _).
  rewrite E, P. rewrite Es in *. rewrite Ed in Hd. clear E P Es Ed.
  inversion Hall as [|? ? Hfirst Hrest]; subst.
  cbn [channel_samples map debounce_run].
  rewrite debounce_update_start by (rewrite ?Hfirst; auto using negb_neq).
  cbn [fst snd].
  fold (channel_samples i rest).
  rewrite debounce_run_commit; cbn [c_stable c_debouncing c_lastChangeMs].
  - cbn [fst snd c_stable c_debouncing].
    destruct (c_stable (chan i w)); cbn; repeat split; auto; discriminate.
  - reflexivity.
  - apply Forall_channel_samples. exact Hrest.
  - apply Exists_channel_samples. exact Hex.
Qed.

(** C3: a channel at rest whose level leaves the stable level and comes
    back while every pass in between is still inside the debounce window
    calls [onPressed] in none of these passes, keeps its stable level and
    is at rest again; whatever is sampled later, the channel behaves as if
    the bounce had not been. *)
Theorem bounce_is_discarded
    (i : nat) (w : World) (first : Z * (Z -> bool))
    (mid : list (Z * (Z -> bool))) (last : Z * (Z -> bool)) :
  (i < N)%nat -> wf w ->
  debouncing w !!! i = false ->
  level_of i first <> lastStable w !!! i ->
  Forall (fun s => level_of i s <> lastStable w !!! i /\
                   sub32 (clock_of s) (clock_of first) < DEBOUNCE_MS) mid ->
  level_of i last = lastStable w !!! i ->
  press_count i (out (run (first :: mid ++ [last]) w)) = 0%nat /\
  lastStable (st (run (first :: mid ++ [last]) w)) !!! i = lastStable w !!! i /\
  debouncing (st (run (first :: mid ++ [last]) w)) !!! i = false /\
  forall more,
    press_count i (out (run more (st (run (first :: mid ++ [last]) w)))) =
      press_count i (out (run more w)) /\
    lastStable (st (run more (st (run (first :: mid ++ [last]) w)))) !!! i =
      lastStable (st (run more w)) !!! i /\
    debouncing (st (run more (st (run (first :: mid ++ [last]) w)))) !!! i =
      debouncing (st (run more w)) !!! i.
Proof.
  intros Hi Hw Hd Hfirst Hmid Hlast.
  set (bounce := first :: mid ++ [last]).
  assert (Hc : chan i (st (run bounce w)) =
               mkChan (lastStable w !!! i) false (clock_of first) /\
               press_count i (out (run bounce w)) = 0%nat).
  { destruct (run_chan bounce i w Hw Hi) as [E P]. rewrite E, P.
    destruct (chan_fields i w) as (Es & Ed & _).
    rewrite Es in *. rewrite Ed in Hd. clear E P Es Ed.
    unfold bounce. cbn [channel_samples map debounce_run].
    rewrite debounce_update_start by assumption. cbn [fst snd].
    rewrite map_app. fold (channel_samples i mid). rewrite debounce_run_app.
    rewrite (debounce_run_pending
               (mkChan (c_stable (chan i w)) true (clock_of first))
               (channel_samples i mid));
      [|reflexivity|apply Forall_channel_samples; exact Hmid].
    cbn [fst snd map debounce_run]. unfold debounce_update.
    cbn [c_stable]. rewrite Hlast, eqb_reflx. split; reflexivity. }
  destruct Hc as [Hc Hp].
  assert (Hq : chan_equiv (chan i (st (run bounce w))) (chan i w)).
  { rewrite Hc. unfold chan_equiv, chan. cbn. rewrite Hd.
    repeat split. discriminate. }
  split; [exact Hp|].
  split; [destruct (chan_fields i (st (run bounce w))) as (-> & _); rewrite Hc; reflexivity|].
  split; [destruct (chan_fields i (st (run bounce w))) as (_ & -> & _); rewrite Hc; reflexivity|].
  intros more.
  destruct (run_chan more i (st (run bounce w)) (run_wf _ _ Hw) Hi) as [E1 P1].
  destruct (run_chan more i w Hw Hi) as [E2 P2].
  destruct (debounce_run_equiv _ _ (channel_samples i more) Hq) as [(Q1 & Q2 & _) Q3].
  rewrite <- E1, <- E2 in Q1, Q2. rewrite <- P1, <- P2 in Q3.
  split; [exact Q3|]. split; [exact Q1|exact Q2].
Qed.

Lemma sustained_change_presses_once_iff_low_witness :
  lastStable (st (run [(millis (U32 - 10), all_low); (millis (U32 - 5), all_low);
                       (millis (U32 + 25), all_low)] w0)) !!! BTN_HADOU = LOW /\
  press_count BTN_HADOU
    (out (run [(millis (U32 - 10), all_low); (millis (U32 - 5), all_low);
               (millis (U32 + 25), all_low)] w0)) = 1%nat.
Proof.
  destruct (sustained_change_presses_once_iff_low BTN_HADOU w0
              (millis (U32 - 10), all_low)
              [(millis (U32 - 5), all_low); (millis (U32 + 25), all_low)])
    as (H1 & _ & H3 & _).
  - unfold BTN_HADOU, N. lia.
  - repeat split.
  - reflexivity.
  - repeat constructor.
  - apply Exists_cons_tl, Exists_cons_hd. vm_compute. discriminate.
  - split; [exact H1|]. apply H3. reflexivity.
Defined.

Lemma bounce_is_discarded_witness :
  press_count BTN_HADOU
    (out (run ((100, all_low) :: [(110, all_low); (129, all_low)]
                 ++ [(135, all_high)]) w0)) = 0%nat /\
  lastStable (st (run ((100, all_low) :: [(110, all_low); (129, all_low)]
                         ++ [(135, all_high)]) w0)) !!! BTN_HADOU = HIGH.
Proof.
  destruct (bounce_is_discarded BTN_HADOU w0 (100, all_low)
              [(110, all_low); (129, all_low)] (135, all_high))
    as (H1 & H2 & _).
  - unfold BTN_HADOU, N. lia.
  - repeat split.
  - reflexivity.
  - vm_compute. discriminate.
  - repeat constructor; vm_compute; discriminate.
  - reflexivity.
  - split; [exact H1|exact H2].
Defined.

(** C7: while a channel is in transition, a pass that finds its level off
    the stable level inside the window changes nothing, the start time
    least of all; the next such pass is judged by the time gone by since
    that same start time, and commits the level it reads or leaves the
    transition as it is.  The state holds no pending level to compare
    with. *)
Theorem transition_timer_not_restarted
    (i : nat) (w : World) (mid : list (Z * (Z -> bool)))
    (s : Z * (Z -> bool)) :
  (i < N)%nat -> wf w ->
  debouncing w !!! i = true ->
  Forall (fun x => level_of i x <> lastStable w !!! i /\
                   sub32 (clock_of x) (lastChangeMs w !!! i) < DEBOUNCE_MS) mid ->
  level_of i s <> lastStable w !!! i ->
  chan i (st (run mid w)) = chan i w /\
  press_count i (out (run mid w)) = 0%nat /\
  lastChangeMs (st (run (mid ++ [s]) w)) !!! i = lastChangeMs w !!! i /\
  (DEBOUNCE_MS <= sub32 (clock_of s) (lastChangeMs w !!! i) ->
   lastStable (st (run (mid ++ [s]) w)) !!! i = level_of i s /\
   debouncing (st (run (mid ++ [s]) w)) !!! i = false) /\
  (sub32 (clock_of s) (lastChangeMs w !!! i) < DEBOUNCE_MS ->
   lastStable (st (run (mid ++ [s]) w)) !!! i = lastStable w !!! i /\
   debouncing (st (run (mid ++ [s]) w)) !!! i = true).
Proof.
  intros Hi Hw Hd Hmid Hs.
  destruct (run_chan mid i w Hw Hi) as [E P].
  destruct (run_chan (mid ++ [s]) i w Hw Hi) as [E' _].
  destruct (chan_fields i (st (run (mid ++ [s]) w))) as (-> & -> & ->).
  destruct (chan_fields i w) as (Es & Ed & Et).
  rewrite Es, Et in *. rewrite Ed in Hd.
  rewrite (debounce_run_pending (chan i w) (channel_samples i mid)) in E, P;
    [|exact Hd|apply Forall_channel_samples; exact Hmid
     |exact Hd|apply Forall_channel_samples; exact Hmid].
  unfold channel_samples in E'. rewrite map_app in E'.
  fold (channel_samples i mid) in E'.
  rewrite debounce_run_app in E'.
  rewrite (debounce_run_pending (chan i w) (channel_samples i mid)) in E';
    [|exact Hd|apply Forall_channel_samples; exact Hmid].
  cbn [fst snd map debounce_run] in E'. unfold debounce_update in E'.
  destruct (eqb_spec (level_of i s) (c_stable (chan i w))); [contradiction|].
  rewrite Hd in E'. cbn [negb] in E'.
  split; [exact E|]. split; [exact P|].
  destruct (Z.leb_spec DEBOUNCE_MS
              (sub32 (clock_of s) (c_lastChangeMs (chan i w))));
    rewrite E'; cbn [fst c_stable c_debouncing c_lastChangeMs];
    (split; [reflexivity|]); split; intros; auto; lia.
Qed.

Lemma transition_timer_not_restarted_witness :
  lastChangeMs (st (run ([(millis (U32 - 5), all_low); (millis (U32 + 2), all_low)]
                           ++ [(millis (U32 + 25), all_low)]) w_pending))
    !!! BTN_TATSU = millis (U32 - 10) /\
  lastStable (st (run ([(millis (U32 - 5), all_low); (millis (U32 + 2), all_low)]
                         ++ [(millis (U32 + 25), all_low)]) w_pending))
    !!! BTN_TATSU = LOW.
Proof.
  destruct (transition_timer_not_restarted BTN_TATSU w_pending
              [(millis (U32 - 5), all_low); (millis (U32 + 2), all_low)]
              (millis (U32 + 25), all_low))
    as (_ & _ & H3 & H4 & _).
  - unfold BTN_TATSU, N. lia.
  - repeat split.
  - reflexivity.
  - repeat constructor; vm_compute; discriminate.
  - vm_compute. discriminate.
  - split; [exact H3|]. apply H4. vm_compute. discriminate.
Defined.

(** C10: the time test of [loop()] subtracts two [uint32_t], so when the
    transition of a channel began at uptime [t0] and the pass is entered at
    uptime [t1], less than 2^32 ms later, the difference it computes is
    [t1 - t0], also when [millis()] has wrapped in between, and the pass
    commits the new level exactly when [t1 - t0] reaches DEBOUNCE_MS. *)
Theorem elapsed_time_survives_clock_wrap
    (i : nat) (w : World) (t0 t1 : Z) (pins : Z -> bool) :
  (i < N)%nat -> wf w ->
  debouncing w !!! i = true ->
  lastChangeMs w !!! i = millis t0 ->
  pins (SWITCH_PINS !!! i) <> lastStable w !!! i ->
  0 <= t1 - t0 < U32 ->
  sub32 (millis t1) (lastChangeMs w !!! i) = t1 - t0 /\
  (DEBOUNCE_MS <= t1 - t0 <->
   lastStable (st (loop (millis t1) pins w)) !!! i = pins (SWITCH_PINS !!! i)) /\
  (DEBOUNCE_MS <= t1 - t0 <->
   debouncing (st (loop (millis t1) pins w)) !!! i = false).
Proof.
  intros Hi Hw Hd Ht Hp Hel.
  destruct (loop_chan (millis t1) pins i w Hw Hi) as [E _].
  destruct (chan_fields i (st (loop (millis t1) pins w))) as (-> & -> & _).
  destruct (chan_fields i w) as (Es & Ed & Et).
  rewrite Es, Et in *. rewrite Ed in Hd.
  rewrite E. unfold debounce_update.
  destruct (eqb_spec (pins (SWITCH_PINS !!! i)) (c_stable (chan i w)));
    [contradiction|].
  rewrite Hd, Ht, (sub32_millis t0 t1 Hel). cbn [negb].
  split; [reflexivity|].
  destruct (Z.leb_spec DEBOUNCE_MS (t1 - t0));
    cbn [fst c_stable c_debouncing]; rewrite ?Hd.
  - repeat split; auto.
  - repeat split; intros; try lia; congruence.
Qed.

Lemma elapsed_time_survives_clock_wrap_witness :
  sub32 (millis (U32 + 25)) (lastChangeMs w_pending !!! BTN_TOGGLE_FACE) = 35 /\
  lastStable (st (loop (millis (U32 + 25)) all_low w_pending))
    !!! BTN_TOGGLE_FACE = LOW.
Proof.
  destruct (elapsed_time_survives_clock_wrap BTN_TOGGLE_FACE w_pending
              (U32 - 10) (U32 + 25) all_low)
    as (H1 & H2 & _).
  - unfold BTN_TOGGLE_FACE, N. lia.
  - repeat split.
  - reflexivity.
  - reflexivity.
  - vm_compute. discriminate.
  - unfold U32. lia.
  - split; [exact H1|]. apply H2. vm_compute. discriminate.
Defined.

(** * Further properties of the sketch *)

(** ** The key buffers of [hold] and [sendKeys] *)

Lemma collect_keys_full (tmp : list Z) (ks : list Z) :
  foldl (fun '(tmp, i) k =>
           if (i <? 6)%nat then (<[i:=k]> tmp, S i) else (tmp, i))
        (tmp, 6%nat) ks = (tmp, 6%nat).
Proof. revert tmp; induction ks as [|k ks IH]; intros tmp; [reflexivity|apply IH]. Qed.

Lemma hold_report_keys (ks : list Z) :
  fill_report (fst (collect_keys ks)) (snd (collect_keys ks)) =
  take 6 (ks ++ replicate 6 0).
Proof.
  destruct ks as [|a [|b [|c [|d [|e [|f rest]]]]]]; try reflexivity.
  unfold collect_keys. cbn [foldl Nat.ltb Nat.leb]. cbn -[foldl].
  rewrite collect_keys_full. reflexivity.
Qed.

(** X1: [hold(ks, ms)] sends the first six keys of [ks], filled up with
    zeros to six key codes, if the transport is ready, and then delays
    [ms]; keys after the sixth are dropped, and an empty [ks] sends the
    all-zero report. *)
Theorem hold_sends_first_six_keys (ks : list Z) (ms : Z) (w : World) :
  out (hold ks ms w) =
    (if usb_ready w (ready_calls w)
     then [KeyboardReport 1 0 (take 6 (ks ++ replicate 6 0))] else [])
    ++ [Delay ms] /\
  st (hold ks ms w) = next_ready_call w.
Proof.
  rewrite plays_hold, hold_report_keys.
  cbn [out st reports is_send length skip_unready].
  rewrite next_ready_call_add.
  destruct (usb_ready w (ready_calls w)); split; reflexivity.
Qed.

Lemma fill_loop_lookup (keys kc : list Z) (n j : nat) :
  (n <= length kc)%nat ->
  foldl (fun kc i => <[i := keys !!! i]> kc) kc (seq 0 n) !!! j =
  if (j <? n)%nat then keys !!! j else kc !!! j.
Proof.
  induction n as [|n IH]; intros Hn; [reflexivity|].
  rewrite seq_S, foldl_app. cbn [foldl Nat.add].
  destruct (Nat.eq_dec j n) as [->|Hne].
  - rewrite list_lookup_total_insert_eq.
    + destruct (Nat.ltb_spec n (S n)); [reflexivity|lia].
    + clear IH. revert kc Hn. generalize (seq 0 n).
      intros l; induction l as [|x l IHl]; intros kc Hn; cbn [foldl]; [lia|].
      apply IHl. rewrite length_insert. exact Hn.
  - rewrite list_lookup_total_insert_ne by congruence.
    rewrite IH by lia.
    destruct (Nat.ltb_spec j n), (Nat.ltb_spec j (S n)); try reflexivity; lia.
Qed.

Lemma fill_loop_length (keys kc : list Z) (l : list nat) :
  length (foldl (fun kc i => <[i := keys !!! i]> kc) kc l) = length kc.
Proof.
  revert kc; induction l as [|x l IH]; intros kc; [reflexivity|].
  cbn [foldl]. rewrite IH, length_insert. reflexivity.
Qed.

(** X2: the report that [sendKeys(keys, count)] builds always has six key
    codes: [keys[j]] at the places below [count], zero at the others; a
    [count] above six is cut to six. *)
Theorem sendKeys_report_layout (keys : list Z) (count : nat) :
  length (fill_report keys count) = 6%nat /\
  (forall j, (j < 6)%nat ->
     fill_report keys count !!! j = if (j <? count)%nat then keys !!! j else 0) /\
  fill_report keys count = fill_report keys (Nat.min count 6).
Proof.
  unfold fill_report. split; [apply fill_loop_length|]. split.
  - intros j Hj. rewrite fill_loop_lookup by (cbn; lia).
    destruct (Nat.ltb_spec j (Nat.min count 6)), (Nat.ltb_spec j count);
      try reflexivity; try lia.
    do 6 (destruct j as [|j]; [reflexivity|]). lia.
  - replace (Nat.min (Nat.min count 6) 6) with (Nat.min count 6) by lia.
    reflexivity.
Qed.

Lemma sendKeys_report_layout_witness :
  fill_report [7; 8; 9] 2 !!! 1%nat = 8 /\ fill_report [7; 8; 9] 2 !!! 2%nat = 0.
Proof.
  destruct (sendKeys_report_layout [7; 8; 9] 2) as (_ & H & _).
  split; [apply (H 1%nat); lia|apply (H 2%nat); lia].
Defined.

(** ** The other two commands *)

(** X3: when the transport is ready at each of its eight sends,
    [cmd_shoryu(punch)] puts out forward held STEP/2 ms, release, gap GAP/2
    ms, Down held STEP/2 ms, release, gap GAP/2 ms, Down and forward held
    STEP ms, then at once the attack key alone held TAP ms, release, gap
    GAP ms, release; forward is Right when facing right and Left when
    facing left. *)
Theorem shoryu_sequence_when_ready (punch : Z) (w : World) :
  (forall k, (k < 8)%nat -> usb_ready w (ready_calls w + k)%nat = true) ->
  out (cmd_shoryu punch w) =
  [ KeyboardReport 1 0 [forward_key (facingRight w); 0; 0; 0; 0; 0];
    Delay (STEP / 2); KeyboardRelease 1; Delay (GAP / 2);
    KeyboardReport 1 0 [KEY_DOWN; 0; 0; 0; 0; 0];
    Delay (STEP / 2); KeyboardRelease 1; Delay (GAP / 2);
    KeyboardReport 1 0 [KEY_DOWN; forward_key (facingRight w); 0; 0; 0; 0];
    Delay STEP;
    KeyboardReport 1 0 [punch; 0; 0; 0; 0; 0]; Delay TAP;
    KeyboardRelease 1; Delay GAP;
    KeyboardRelease 1 ].
Proof.
  intros Hready. rewrite plays_cmd_shoryu. cbn [out].
  apply skip_unready_ready. exact Hready.
Qed.

Lemma shoryu_sequence_when_ready_witness :
  out (cmd_shoryu HP (set_facingRight false w0)) =
  [ KeyboardReport 1 0 [KEY_LEFT; 0; 0; 0; 0; 0]; Delay 14;
    KeyboardRelease 1; Delay 8;
    KeyboardReport 1 0 [KEY_DOWN; 0; 0; 0; 0; 0]; Delay 14;
    KeyboardRelease 1; Delay 8;
    KeyboardReport 1 0 [KEY_DOWN; KEY_LEFT; 0; 0; 0; 0]; Delay 28;
    KeyboardReport 1 0 [HP; 0; 0; 0; 0; 0]; Delay 22;
    KeyboardRelease 1; Delay 16;
    KeyboardRelease 1 ].
Proof.
  apply (shoryu_sequence_when_ready HP (set_facingRight false w0)).
  intros k Hk. reflexivity.
Defined.

Lemma backward_is_forward_flipped facing :
  backward_key facing = forward_key (negb facing).
Proof. destruct facing; reflexivity. Qed.

(** X4: [cmd_tatsu] is [cmd_hadouken] seen from the other side: whatever
    the transport answers, [cmd_tatsu(kick)] puts out what
    [cmd_hadouken(kick)] puts out with [facingRight] negated, and like it
    changes nothing but the count of [ready()] calls. *)
Theorem tatsu_is_mirrored_hadouken (kick : Z) (w : World) :
  out (cmd_tatsu kick w) =
    out (cmd_hadouken kick (set_facingRight (negb (facingRight w)) w)) /\
  st (cmd_tatsu kick w) =
    set_facingRight (facingRight w)
      (st (cmd_hadouken kick (set_facingRight (negb (facingRight w)) w))).
Proof.
  rewrite plays_cmd_tatsu, plays_cmd_hadouken. cbn [out st].
  unfold tatsu_script. cbn [facingRight set_facingRight usb_ready ready_calls].
  rewrite backward_is_forward_flipped. split; reflexivity.
Qed.

(** X5: whatever the attack key, the facing direction and the transport,
    the delays of [cmd_shoryu] are STEP/2, GAP/2, STEP/2, GAP/2, STEP, TAP,
    GAP (110 ms in all) and those of [cmd_tatsu] are STEP, GAP, STEP, GAP,
    STEP/2, TAP, GAP (140 ms in all). *)
Theorem shoryu_tatsu_total_delay (k : Z) (w : World) :
  delays (out (cmd_shoryu k w)) =
    [STEP / 2; GAP / 2; STEP / 2; GAP / 2; STEP; TAP; GAP] /\
  total (delays (out (cmd_shoryu k w))) = 110 /\
  delays (out (cmd_tatsu k w)) =
    [STEP; GAP; STEP; GAP; STEP / 2; TAP; GAP] /\
  total (delays (out (cmd_tatsu k w))) = 140.
Proof.
  rewrite plays_cmd_shoryu, plays_cmd_tatsu. cbn [out].
  rewrite !delays_skip_unready. repeat split.
Qed.

(** ** What a dispatch can put out *)

Lemma forallb_skip_unready (P : Event -> bool) rdy n es :
  forallb P es = true -> forallb P (skip_unready rdy n es) = true.
Proof.
  revert n; induction es as [|e es IH]; intros n H; [reflexivity|].
  cbn [forallb] in H. apply andb_true_iff in H as [He Hes].
  cbn [skip_unready]. destruct (is_send e).
  - destruct (rdy n); cbn [app forallb]; rewrite ?He; cbn [andb]; auto.
  - cbn [forallb]. rewrite He. cbn [andb]. auto.
Qed.

(** X6: whatever the index, the facing direction and the transport, every
    report that [onPressed] sends has report id 1, no modifier and six key
    codes, each of them zero, Down, Left, Right, LP, MP or LK (never Up,
    HP, MK or HK); every release has report id 1; every delay is between 1
    and STEP ms. *)
Theorem dispatch_output_well_formed (idx : nat) (w : World) :
  forallb dispatch_event_ok (out (onPressed idx w)) = true.
Proof.
  unfold onPressed.
  destruct (idx =? BTN_HADOU)%nat;
    [rewrite plays_cmd_hadouken; cbn [out]; apply forallb_skip_unready;
     destruct (facingRight w); reflexivity|].
  destruct (idx =? BTN_SHORYU)%nat;
    [rewrite plays_cmd_shoryu; cbn [out]; apply forallb_skip_unready;
     destruct (facingRight w); reflexivity|].
  destruct (idx =? BTN_TATSU)%nat;
    [rewrite plays_cmd_tatsu; cbn [out]; apply forallb_skip_unready;
     destruct (facingRight w); reflexivity|].
  destruct (idx =? BTN_TOGGLE_FACE)%nat; reflexivity.
Qed.

(** ** The last report of a command *)

Lemma last_report_release rdy n pre :
  rdy (n + length (reports pre))%nat = true \/
  rdy (n + S (length (reports pre)))%nat = true ->
  last (reports (skip_unready rdy n
                   (pre ++ [KeyboardRelease 1; Delay GAP; KeyboardRelease 1])))
  = Some (KeyboardRelease 1).
Proof.
  intros H. rewrite skip_unready_app, reports_app, last_app.
  cbn [skip_unready is_send].
  replace (S (n + length (reports pre))) with (n + S (length (reports pre)))%nat
    by lia.
  destruct (rdy (n + length (reports pre))%nat),
           (rdy (n + S (length (reports pre)))%nat);
    try reflexivity.
  destruct H; discriminate.
Qed.

Lemma last_report_stuck rdy n pre kc :
  rdy (n + length (reports pre))%nat = true ->
  rdy (n + S (length (reports pre)))%nat = false ->
  rdy (n + S (S (length (reports pre))))%nat = false ->
  last (reports (skip_unready rdy n
                   (pre ++ [KeyboardReport 1 0 kc; Delay TAP;
                            KeyboardRelease 1; Delay GAP; KeyboardRelease 1])))
  = Some (KeyboardReport 1 0 kc).
Proof.
  intros H1 H2 H3. rewrite skip_unready_app, reports_app, last_app.
  cbn [skip_unready is_send].
  replace (S (n + length (reports pre))) with (n + S (length (reports pre)))%nat
    by lia.
  replace (S (n + S (length (reports pre))))
    with (n + S (S (length (reports pre))))%nat by lia.
  rewrite H1, H2, H3. reflexivity.
Qed.

(** X7: each command ends with all keys released as soon as one of its
    last two sends, the release of the tap or the closing release, finds
    the transport ready: the last report that reaches the keyboard is then
    a release. *)
Theorem commands_end_released (k : Z) (w : World) :
  usb_ready w (ready_calls w + 6)%nat = true \/
  usb_ready w (ready_calls w + 7)%nat = true ->
  last (reports (out (cmd_hadouken k w))) = Some (KeyboardRelease 1) /\
  last (reports (out (cmd_shoryu k w))) = Some (KeyboardRelease 1) /\
  last (reports (out (cmd_tatsu k w))) = Some (KeyboardRelease 1).
Proof.
  intros H.
  rewrite plays_cmd_hadouken, plays_cmd_shoryu, plays_cmd_tatsu. cbn [out].
  repeat split.
  - exact (last_report_release (usb_ready w) (ready_calls w)
             (firstn 12 (hadouken_script (forward_key (facingRight w)) k)) H).
  - exact (last_report_release (usb_ready w) (ready_calls w)
             (firstn 12 (shoryu_script (forward_key (facingRight w)) k)) H).
  - exact (last_report_release (usb_ready w) (ready_calls w)
             (firstn 12 (tatsu_script (backward_key (facingRight w)) k)) H).
Qed.

Lemma commands_end_released_witness :
  last (reports (out (cmd_shoryu MP
                        (setup all_high (fun n => (n =? 6)%nat))))) =
  Some (KeyboardRelease 1).
Proof.
  apply (commands_end_released MP (setup all_high (fun n => (n =? 6)%nat))).
  left. reflexivity.
Defined.

(** X8: no send is tried again, so a command can leave its attack key
    down: when the send of the attack key finds the transport ready and
    the two releases after it do not, the last report that reaches the
    keyboard is the one that asserts the attack key. *)
Theorem attack_key_left_down (k : Z) (w : World) :
  usb_ready w (ready_calls w + 5)%nat = true ->
  usb_ready w (ready_calls w + 6)%nat = false ->
  usb_ready w (ready_calls w + 7)%nat = false ->
  last (reports (out (cmd_hadouken k w))) =
    Some (KeyboardReport 1 0 [k; 0; 0; 0; 0; 0]) /\
  last (reports (out (cmd_shoryu k w))) =
    Some (KeyboardReport 1 0 [k; 0; 0; 0; 0; 0]) /\
  last (reports (out (cmd_tatsu k w))) =
    Some (KeyboardReport 1 0 [k; 0; 0; 0; 0; 0]).
Proof.
  intros H5 H6 H7.
  rewrite plays_cmd_hadouken, plays_cmd_shoryu, plays_cmd_tatsu. cbn [out].
  repeat split.
  - exact (last_report_stuck (usb_ready w) (ready_calls w)
             (firstn 10 (hadouken_script (forward_key (facingRight w)) k))
             _ H5 H6 H7).
  - exact (last_report_stuck (usb_ready w) (ready_calls w)
             (firstn 10 (shoryu_script (forward_key (facingRight w)) k))
             _ H5 H6 H7).
  - exact (last_report_stuck (usb_ready w) (ready_calls w)
             (firstn 10 (tatsu_script (backward_key (facingRight w)) k))
             _ H5 H6 H7).
Qed.

Lemma attack_key_left_down_witness :
  last (reports (out (cmd_tatsu LK
                        (setup all_high (fun n => (n <? 6)%nat))))) =
  Some (KeyboardReport 1 0 [LK; 0; 0; 0; 0; 0]).
Proof.
  apply (attack_key_left_down LK (setup all_high (fun n => (n <? 6)%nat)));
    reflexivity.
Defined.

(** ** What one dispatch does to the world *)

Lemma pressed_indices_app es1 es2 :
  pressed_indices (es1 ++ es2) = pressed_indices es1 ++ pressed_indices es2.
Proof.
  induction es1 as [|e es1 IH]; [reflexivity|].
  destruct e; simpl; rewrite IH; reflexivity.
Qed.

Lemma pressed_indices_skip_unready rdy n es :
  pressed_indices es = [] -> pressed_indices (skip_unready rdy n es) = [].
Proof.
  revert n; induction es as [|e es IH]; intros n H; [reflexivity|].
  destruct e; cbn [skip_unready is_send pressed_indices] in *;
    try discriminate; try (apply IH; exact H);
    rewrite pressed_indices_app, (IH _ H); destruct (rdy n); reflexivity.
Qed.

Lemma total_app ds1 ds2 : total (ds1 ++ ds2) = total ds1 + total ds2.
Proof.
  unfold total. induction ds1 as [|d ds1 IH]; [reflexivity|].
  cbn [app foldr]. rewrite IH. lia.
Qed.

(** The effect of [onPressed(idx)] on the facing direction and on the USB
    stack, the time it spends in [delay], and that it never calls
    itself. *)
Lemma onPressed_effect idx w :
  facingRight (st (onPressed idx w)) =
    (if (idx =? BTN_TOGGLE_FACE)%nat then negb (facingRight w)
     else facingRight w) /\
  usb_ready (st (onPressed idx w)) = usb_ready w /\
  ready_calls (st (onPressed idx w)) =
    (ready_calls w + if (idx <? BTN_TOGGLE_FACE)%nat then 8 else 0)%nat /\
  total (delays (out (onPressed idx w))) =
    (if (idx =? BTN_HADOU)%nat then hadouken_ms
     else if (idx =? BTN_SHORYU)%nat then shoryu_ms
     else if (idx =? BTN_TATSU)%nat then tatsu_ms else 0) /\
  pressed_indices (out (onPressed idx w)) = [].
Proof.
  destruct idx as [|[|[|[|idx]]]].
  - change (onPressed 0 w) with (cmd_hadouken LP w).
    rewrite plays_cmd_hadouken. cbn [st out].
    rewrite delays_skip_unready, pressed_indices_skip_unready by reflexivity.
    repeat split.
  - change (onPressed 1 w) with (cmd_shoryu MP w).
    rewrite plays_cmd_shoryu. cbn [st out].
    rewrite delays_skip_unready, pressed_indices_skip_unready by reflexivity.
    repeat split.
  - change (onPressed 2 w) with (cmd_tatsu LK w).
    rewrite plays_cmd_tatsu. cbn [st out].
    rewrite delays_skip_unready, pressed_indices_skip_unready by reflexivity.
    repeat split.
  - cbn. rewrite Nat.add_0_r. repeat split.
  - cbn. rewrite Nat.add_0_r. repeat split.
Qed.

(** A pass over one channel either puts out nothing and leaves the facing
    direction and the USB stack alone, or is one call of [onPressed]. *)
Lemma scan_cases now pins j w :
  (out (scan now pins j w) = [] /\ same_env w (st (scan now pins j w))) \/
  (exists w', same_env w w' /\
     out (scan now pins j w) = Pressed j :: out (onPressed j w') /\
     st (scan now pins j w) = st (onPressed j w')).
Proof.
  unfold scan, bind, gets, modify, emit, ret. cbn.
  destruct (eqb _ _); cbn; [left; repeat split|].
  destruct (debouncing w !!! j); cbn; [|left; repeat split].
  destruct (DEBOUNCE_MS <=? _); cbn; [|left; repeat split].
  destruct (eqb _ LOW); cbn; [|left; repeat split].
  right. eexists. split; [|split; reflexivity]. repeat split.
Qed.

(** ** From one channel to passes and runs *)

Section StateAlongTheOutput.
Context {T : Type}.
Variable obs : World -> T.
Variable act : T -> list Event -> T.
Hypothesis act_nil : forall s, act s [] = s.
Hypothesis act_app : forall s es1 es2, act s (es1 ++ es2) = act (act s es1) es2.
Hypothesis obs_scan : forall now pins j w,
  obs (st (scan now pins j w)) = act (obs w) (out (scan now pins j w)).

Lemma obs_scans now pins js w :
  obs (st (for_each js (scan now pins) w)) =
  act (obs w) (out (for_each js (scan now pins) w)).
Proof.
  revert w; induction js as [|j js IH]; intros w.
  - cbn. rewrite act_nil. reflexivity.
  - cbn [for_each]. unfold bind. cbn [st out].
    rewrite IH, obs_scan, act_app. reflexivity.
Qed.

Lemma obs_run samples w :
  obs (st (run samples w)) = act (obs w) (out (run samples w)).
Proof.
  revert w; induction samples as [|s samples IH]; intros w.
  - cbn. rewrite act_nil. reflexivity.
  - unfold run in *. cbn [for_each]. unfold bind. cbn [st out].
    rewrite IH. unfold loop. rewrite obs_scans, act_app. reflexivity.
Qed.
End StateAlongTheOutput.

Section OutputOfRuns.
Variable P : list Event -> Prop.
Hypothesis P_nil : P [].
Hypothesis P_app : forall es1 es2, P es1 -> P es2 -> P (es1 ++ es2).
Hypothesis P_scan : forall now pins j w, P (out (scan now pins j w)).

Lemma P_scans now pins js w : P (out (for_each js (scan now pins) w)).
Proof.
  revert w; induction js as [|j js IH]; intros w; [exact P_nil|].
  cbn [for_each]. unfold bind. cbn [out]. apply P_app; [apply P_scan|apply IH].
Qed.

Lemma P_run samples w : P (out (run samples w)).
Proof.
  revert w; induction samples as [|s samples IH]; intros w; [exact P_nil|].
  unfold run in *. cbn [for_each]. unfold bind. cbn [out].
  apply P_app; [apply P_scans|apply IH].
Qed.
End OutputOfRuns.

(** ** The scanner as a whole *)

Lemma flipped_add f a b : flipped (flipped f a) b = flipped f (a + b).
Proof.
  unfold flipped. rewrite Nat.even_add.
  destruct (Nat.even a), (Nat.even b), f; reflexivity.
Qed.

Lemma facing_scan now pins j w :
  facingRight (st (scan now pins j w)) =
  flipped (facingRight w) (press_count BTN_TOGGLE_FACE (out (scan now pins j w))).
Proof.
  destruct (scan_cases now pins j w) as [[-> (E & _)]|(w' & (E & _) & -> & ->)].
  - exact E.
  - destruct (onPressed_effect j w') as (-> & _).
    destruct (onPressed_frame j w') as (_ & _ & _ & P).
    cbn [press_count]. rewrite P, E, Nat.add_0_r.
    destruct (j =? BTN_TOGGLE_FACE)%nat; reflexivity.
Qed.

(** X9: over any passes of [loop()], [facingRight] changes with the calls
    of [onPressed(BTN_TOGGLE_FACE)] and with nothing else: it has its
    first value after an even number of them and the other value after an
    odd number.  No command and no other channel touches it. *)
Theorem facing_follows_toggle_presses
    (samples : list (Z * (Z -> bool))) (w : World) :
  facingRight (st (run samples w)) =
  flipped (facingRight w)
          (press_count BTN_TOGGLE_FACE (out (run samples w))).
Proof.
  apply (obs_run facingRight
           (fun f es => flipped f (press_count BTN_TOGGLE_FACE es))).
  - reflexivity.
  - intros s es1 es2. rewrite press_count_app, flipped_add. reflexivity.
  - apply facing_scan.
Qed.

Lemma macro_presses_app es1 es2 :
  macro_presses (es1 ++ es2) = (macro_presses es1 + macro_presses es2)%nat.
Proof. unfold macro_presses. rewrite !press_count_app. lia. Qed.

Lemma ready_calls_scan now pins j w :
  ready_calls (st (scan now pins j w)) =
  (ready_calls w + 8 * macro_presses (out (scan now pins j w)))%nat.
Proof.
  destruct (scan_cases now pins j w) as [[-> (_ & _ & E)]|(w' & (_ & _ & E) & -> & ->)].
  - rewrite E. cbn. lia.
  - destruct (onPressed_effect j w') as (_ & _ & -> & _).
    destruct (onPressed_frame j w') as (_ & _ & _ & P).
    unfold macro_presses. cbn [press_count]. rewrite !P, E.
    destruct j as [|[|[|j]]]; cbn; lia.
Qed.

(** X10: the transport is asked [ready()] eight times by each command and
    by nothing else: over any passes of [loop()] the number of calls grows
    by eight for every press dispatched to channels 0, 1 and 2. *)
Theorem ready_calls_eight_per_command
    (samples : list (Z * (Z -> bool))) (w : World) :
  ready_calls (st (run samples w)) =
  (ready_calls w + 8 * macro_presses (out (run samples w)))%nat.
Proof.
  apply (obs_run ready_calls (fun n es => (n + 8 * macro_presses es)%nat)).
  - intros n. cbn. lia.
  - intros n es1 es2. rewrite macro_presses_app. lia.
  - apply ready_calls_scan.
Qed.

Lemma blocking_ms_app es1 es2 :
  blocking_ms (es1 ++ es2) = blocking_ms es1 + blocking_ms es2.
Proof. unfold blocking_ms. rewrite !press_count_app, !Nat2Z.inj_add. ring. Qed.

Lemma blocking_scan now pins j w :
  total (delays (out (scan now pins j w))) =
  blocking_ms (out (scan now pins j w)).
Proof.
  destruct (scan_cases now pins j w) as [[-> _]|(w' & _ & -> & _)];
    [reflexivity|].
  destruct (onPressed_effect j w') as (_ & _ & _ & E & _).
  destruct (onPressed_frame j w') as (_ & _ & _ & P).
  cbn [delays]. rewrite E. unfold blocking_ms. cbn [press_count].
  rewrite !P. destruct j as [|[|[|j]]]; reflexivity.
Qed.

(** X11: the time that passes of [loop()] spend in [delay] is the time of
    the commands they start: 140 ms for each press dispatched to channel 0,
    110 ms for channel 1, 140 ms for channel 2, and nothing for the facing
    channel, for channel 4 or for a pass that dispatches nothing;
    whatever the transport answers. *)
Theorem blocking_time_of_passes
    (samples : list (Z * (Z -> bool))) (w : World) :
  total (delays (out (run samples w))) =
  140 * Z.of_nat (press_count BTN_HADOU (out (run samples w)))
  + 110 * Z.of_nat (press_count BTN_SHORYU (out (run samples w)))
  + 140 * Z.of_nat (press_count BTN_TATSU (out (run samples w))).
Proof.
  change (total (delays (out (run samples w))) =
          blocking_ms (out (run samples w))).
  apply (P_run (fun es => total (delays es) = blocking_ms es)).
  - reflexivity.
  - intros es1 es2 H1 H2.
    rewrite delays_app, total_app, blocking_ms_app, H1, H2. reflexivity.
  - apply blocking_scan.
Qed.

Lemma pressed_scans now pins js w :
  pressed_indices (out (for_each js (scan now pins) w)) `sublist_of` js.
Proof.
  revert w; induction js as [|j js IH]; intros w; [constructor|].
  cbn [for_each]. unfold bind. cbn [out]. rewrite pressed_indices_app.
  destruct (scan_cases now pins j w) as [[-> _]|(w' & _ & -> & _)].
  - cbn. apply sublist_cons, IH.
  - destruct (onPressed_effect j w') as (_ & _ & _ & _ & E).
    cbn [pressed_indices]. rewrite E. cbn. apply sublist_skip, IH.
Qed.

(** X12: in one pass of [loop()] the calls of [onPressed] come in
    ascending order of the channel index, at most one for a channel, and
    only for the indices 0 to N-1: the indices dispatched are a
    subsequence of 0, 1, 2, 3, 4. *)
Theorem one_pass_dispatches_in_index_order
    (now : Z) (pins : Z -> bool) (w : World) :
  pressed_indices (out (loop now pins w)) `sublist_of` seq 0 N /\
  NoDup (pressed_indices (out (loop now pins w))) /\
  Forall (fun i => (i < N)%nat) (pressed_indices (out (loop now pins w))).
Proof.
  pose proof (pressed_scans now pins (seq 0 N) w) as H. fold (loop now pins) in H.
  split; [exact H|]. split.
  - eapply sublist_NoDup; [apply NoDup_seq|exact H].
  - apply Forall_forall. intros i Hi.
    pose proof (elem_of_sublist _ _ _ Hi H) as Hs.
    apply elem_of_seq in Hs. lia.
Qed.

Lemma debounce_update_press c raw now :
  snd (debounce_update c raw now) = true <->
  c_debouncing c = true /\ c_stable c = HIGH /\ raw = LOW /\
  DEBOUNCE_MS <= sub32 now (c_lastChangeMs c).
Proof.
  destruct c as [s d t]. unfold debounce_update, HIGH, LOW. simpl.
  destruct raw, s, d; simpl;
    try destruct (Z.leb_spec DEBOUNCE_MS (sub32 now t)); simpl;
    (split;
     [ try discriminate; intros _; do 3 (split; [reflexivity|]); assumption
     | try reflexivity; intros (? & ? & ? & ?); try discriminate; lia ]).
Qed.

(** X13: in one pass of [loop()], [onPressed(i)] is called, once, exactly
    when channel [i] was already debouncing, its stable level was HIGH,
    the pin reads LOW and DEBOUNCE_MS or more have gone by on the clock
    since the transition began; so never in the pass that first sees the
    change, never before the window is over and never for a release. *)
Theorem dispatch_only_after_full_window
    (i : nat) (w : World) (now : Z) (pins : Z -> bool) :
  (i < N)%nat -> wf w ->
  (press_count i (out (loop now pins w)) = 1%nat <->
   debouncing w !!! i = true /\ lastStable w !!! i = HIGH /\
   pins (SWITCH_PINS !!! i) = LOW /\
   DEBOUNCE_MS <= sub32 now (lastChangeMs w !!! i)) /\
  (press_count i (out (loop now pins w)) <= 1)%nat.
Proof.
  intros Hi Hw. destruct (loop_chan now pins i w Hw Hi) as [_ ->].
  pose proof (debounce_update_press (chan i w) (pins (SWITCH_PINS !!! i)) now)
    as H.
  cbn [chan c_stable c_debouncing c_lastChangeMs] in H.
  destruct (snd (debounce_update (chan i w) (pins (SWITCH_PINS !!! i)) now)).
  - split; [|lia]. split; [intros _; apply H; reflexivity|reflexivity].
  - split; [|lia]. split; [discriminate|].
    intros Hc. apply H in Hc. discriminate.
Qed.

Lemma dispatch_only_after_full_window_witness :
  press_count BTN_SHORYU (out (loop (millis (U32 + 25)) all_low w_pending)) = 1%nat /\
  press_count BTN_SHORYU (out (loop (millis (U32 - 10)) all_low w0)) <> 1%nat.
Proof.
  destruct (dispatch_only_after_full_window BTN_SHORYU w_pending
              (millis (U32 + 25)) all_low) as [[_ H] _].
  - unfold BTN_SHORYU, N. lia.
  - repeat split.
  - destruct (dispatch_only_after_full_window BTN_SHORYU w0
                (millis (U32 - 10)) all_low) as [[H' _] _].
    + unfold BTN_SHORYU, N. lia.
    + repeat split.
    + split.
      * apply H. do 3 (split; [reflexivity|]). vm_compute. discriminate.
      * intros E. apply H' in E. destruct E as (E & _). discriminate E.
Defined.

Lemma chan_setup pins0 rdy i :
  (i < N)%nat ->
  chan i (setup pins0 rdy) = mkChan (pins0 (SWITCH_PINS !!! i)) false 0.
Proof.
  intros Hi. unfold N in Hi.
  do 5 (destruct i as [|i]; [reflexivity|]). lia.
Qed.

(** X14: [setup()] takes the level it reads for the stable level, so a
    switch that is held down at start-up and stays down is never
    dispatched: as long as channel [i] reads the level it had at
    [setup()], [onPressed(i)] is not called and the channel stays at
    rest. *)
Theorem level_kept_since_setup_never_presses
    (pins0 : Z -> bool) (rdy : nat -> bool) (i : nat)
    (samples : list (Z * (Z -> bool))) :
  (i < N)%nat ->
  Forall (fun s => level_of i s = pins0 (SWITCH_PINS !!! i)) samples ->
  press_count i (out (run samples (setup pins0 rdy))) = 0%nat /\
  lastStable (st (run samples (setup pins0 rdy))) !!! i =
    pins0 (SWITCH_PINS !!! i) /\
  debouncing (st (run samples (setup pins0 rdy))) !!! i = false.
Proof.
  intros Hi Hall.
  destruct (run_chan samples i (setup pins0 rdy) (wf_setup pins0 rdy) Hi)
    as [E P].
  destruct (chan_fields i (st (run samples (setup pins0 rdy)))) as (-> & -> & _).
  rewrite E, P, (chan_setup pins0 rdy i Hi).
  rewrite debounce_run_settled; [repeat split|reflexivity|].
  apply Forall_channel_samples. exact Hall.
Qed.

Lemma level_kept_since_setup_never_presses_witness :
  press_count BTN_HADOU
    (out (run [(0, all_low); (40, all_low); (5000, all_low)]
              (setup all_low always_ready))) = 0%nat.
Proof.
  apply (level_kept_since_setup_never_presses all_low always_ready BTN_HADOU
           [(0, all_low); (40, all_low); (5000, all_low)]).
  - unfold BTN_HADOU, N. lia.
  - repeat constructor.
Defined.

(** X15: the debouncer of a channel sees nothing but its own pin and the
    clock: two runs of [loop()] that start from the same state of channel
    [i] and read the same levels on its pin at the same clock values bring
    it to the same state with the same number of calls of [onPressed(i)],
    whatever the other pins, the facing direction, the transport and the
    commands played in between. *)
Theorem channel_sees_only_its_pin
    (i : nat) (w w' : World) (samples samples' : list (Z * (Z -> bool))) :
  (i < N)%nat -> wf w -> wf w' ->
  chan i w = chan i w' ->
  channel_samples i samples = channel_samples i samples' ->
  chan i (st (run samples w)) = chan i (st (run samples' w')) /\
  press_count i (out (run samples w)) = press_count i (out (run samples' w')).
Proof.
  intros Hi Hw Hw' Hc Hs.
  destruct (run_chan samples i w Hw Hi) as [-> ->].
  destruct (run_chan samples' i w' Hw' Hi) as [-> ->].
  rewrite Hc, Hs. split; reflexivity.
Qed.

Lemma channel_sees_only_its_pin_witness :
  press_count BTN_TATSU
    (out (run [(100, all_low); (131, all_low)] w0)) =
  press_count BTN_TATSU
    (out (run [(100, fun p => negb (p =? 11)); (131, fun p => negb (p =? 11))]
              (set_facingRight false w_unready))).
Proof.
  apply (channel_sees_only_its_pin BTN_TATSU w0 (set_facingRight false w_unready)
           [(100, all_low); (131, all_low)]
           [(100, fun p => negb (p =? 11)); (131, fun p => negb (p =? 11))]).
  - unfold BTN_TATSU, N. lia.
  - repeat split.
  - repeat split.
  - reflexivity.
  - reflexivity.
Defined.

(** X16: the facing channel is scanned after the three command channels,
    so a command dispatched in a pass of [loop()] is played with the
    facing direction the pass was entered with, also when the facing
    toggle is dispatched in the same pass: the toggle only counts from the
    next pass on. *)
Theorem command_uses_facing_at_pass_entry
    (j : nat) (now : Z) (pins : Z -> bool) (w : World) :
  (j < BTN_TOGGLE_FACE)%nat ->
  press_count j (out (loop now pins w)) = 1%nat ->
  exists pre post w',
    out (loop now pins w) = pre ++ Pressed j :: out (onPressed j w') ++ post /\
    press_count BTN_TOGGLE_FACE pre = 0%nat /\
    facingRight w' = facingRight w.
Proof.
  intros Hj Hp. unfold BTN_TOGGLE_FACE in Hj.
  assert (HjN : (j < N)%nat) by (unfold N; lia).
  unfold loop in *. rewrite (seq_split_at j N HjN) in *.
  destruct (for_each_app (seq 0 j) (j :: seq (S j) (N - S j))
              (scan now pins) w) as [_ Eo].
  rewrite Eo in *. clear Eo.
  set (w1 := st (for_each (seq 0 j) (scan now pins) w)) in *.
  assert (Hb3 : ~ In BTN_TOGGLE_FACE (seq 0 j))
    by (unfold BTN_TOGGLE_FACE; rewrite in_seq; lia).
  assert (Hbj : ~ In j (seq 0 j)) by (rewrite in_seq; lia).
  assert (Haj : ~ In j (seq (S j) (N - S j))) by (rewrite in_seq; lia).
  destruct (scans_chan_other now pins _ _ w Hb3) as [_ P3].
  destruct (scans_chan_other now pins _ _ w Hbj) as [_ Pj].
  assert (Hf : facingRight w1 = facingRight w).
  { unfold w1. rewrite (obs_scans facingRight
      (fun f es => flipped f (press_count BTN_TOGGLE_FACE es))).
    - rewrite P3. reflexivity.
    - reflexivity.
    - intros s es1 es2. rewrite press_count_app, flipped_add. reflexivity.
    - apply facing_scan. }
  cbn [for_each] in *. unfold bind in *. cbn [st out] in *.
  destruct (scans_chan_other now pins _ _ (st (scan now pins j w1)) Haj)
    as [_ Pa].
  rewrite !press_count_app, Pj, Pa in Hp.
  destruct (scan_cases now pins j w1) as [[E _]|(w' & (E & _) & Eo & Es)].
  - rewrite E in Hp. cbn in Hp. discriminate.
  - exists (out (for_each (seq 0 j) (scan now pins) w)),
           (out (for_each (seq (S j) (N - S j)) (scan now pins)
                   (st (scan now pins j w1)))), w'.
    rewrite Eo. split; [reflexivity|]. split; [exact P3|].
    rewrite E. exact Hf.
Qed.

Lemma command_uses_facing_at_pass_entry_witness :
  exists pre post w',
    out (loop (millis (U32 + 25)) all_low w_pending) =
      pre ++ Pressed BTN_TATSU :: out (onPressed BTN_TATSU w') ++ post /\
    press_count BTN_TOGGLE_FACE pre = 0%nat /\
    facingRight w' = facingRight w_pending.
Proof.
  apply (command_uses_facing_at_pass_entry BTN_TATSU (millis (U32 + 25))
           all_low w_pending).
  - unfold BTN_TATSU, BTN_TOGGLE_FACE. lia.
  - reflexivity.
Defined.
